(** * Bet Hub: the client-side market, odds and loan logic

    A shallow embedding of the decision logic of the Bet Hub web client
    (LoanPage, MarketDetail, PublicDashboard, PrivateDashboard) and the
    properties the specification states about it.

    Conventions of the embedding.
    - A JavaScript number is a rational ([Q]); the numbers a page holds are
      IEEE doubles, which are rationals.  Where a page compares or rounds
      the result of an addition, subtraction, product or quotient (the
      borrow guard, the percentages, the due date, the time left), the
      operation is [js_add], [js_sub], [js_mul] or [js_div]: the exact
      result rounded to the nearest double by [round64], with ties to the
      even mantissa and gradual underflow.  A result beyond the largest
      double is kept as it is, where the source goes to [Infinity]: the
      comparisons made and the bounds stated below come out the same for
      both.  No page divides by zero on the paths followed here.
    - The sum of the stakes on an outcome and the two return figures that
      are shown to the cent ([sideAmount], [estPayout], [potentialReturn])
      are kept as exact formulas, to be set against the settlement rules.
      The running sum as the source adds it is [sideAmount64]; the two agree
      whenever no partial sum needs rounding, as with whole amounts.
    - An [async] handler is a function from the page state and the replies
      of the server to the final page state and the list of requests sent,
      in order.
    - A field of the server's JSON that a page reads without a guard is a
      record field; an optional one is an [option]. *)

From Stdlib Require Import QArith Qabs Qminmax Qround Qpower Qreduction ZArith List Ascii String Bool Lia Lqa Permutation.
From Stdlib Require Qcanon SpecFloat.
Import ListNotations.
Set Warnings "-register-all".
Local Open Scope string_scope.
Local Open Scope Q_scope.

(** ** JavaScript numbers *)

(** [x < y] and [x > y] on numbers. *)
Definition js_lt (x y : Q) : bool := negb (Qle_bool y x).
Definition js_gt (x y : Q) : bool := js_lt y x.
(** [x <= y]. *)
Definition js_le (x y : Q) : bool := Qle_bool x y.
(** Truthiness of a number: [0] is falsy. *)
Definition js_truthy (x : Q) : bool := negb (Qeq_bool x 0).
(** [x || d] on a number [x]. *)
Definition js_or (x d : Q) : Q := if js_truthy x then x else d.
(** [Math.min(x, y)]. *)
Definition Math_min (x y : Q) : Q := if js_lt y x then y else x.
(** [Math.round(x)]: the nearest integer, halves rounded up. *)
Definition Math_round (x : Q) : Z := Qfloor (x + (1 # 2)).

(** *** Rounding to a double

    A positive double is [m * 2 ^ (e - 52)] with a whole [m] below
    [2 ^ 53] and [e] from -1022 up; below [2 ^ -1022] the doubles are the
    multiples of [2 ^ -1074]. *)

(** The exponent [e] with [2 ^ e <= x < 2 ^ (e + 1)], for a positive [x]. *)
Definition binade (x : Q) : Z :=
  let k := (Z.log2 (Qnum x) - Z.log2 (Zpos (Qden x)))%Z in
  if Qle_bool (2 ^ k) x then k else (k - 1)%Z.

(** The exponent that sets the spacing of the doubles around [x]: that of
    [x], or -1022 below [2 ^ -1022]. *)
Definition level (x : Q) : Z := Z.max (binade x) (-1022).

(** The distance between the doubles around [x]. *)
Definition quantum (x : Q) : Q := 2 ^ (level x - 52).

(** The nearest whole number, a half going to the even neighbour. *)
Definition rne (y : Q) : Z :=
  let f := Qfloor y in
  match Qcompare (y - inject_Z f) (1 # 2) with
  | Lt => f
  | Gt => (f + 1)%Z
  | Eq => if Z.even f then f else (f + 1)%Z
  end.

(** The double nearest to a positive [x]. *)
Definition round_pos (x : Q) : Q := inject_Z (rne (x / quantum x)) * quantum x.

(** The double nearest to [x]. *)
Definition round64 (x : Q) : Q :=
  let r := Qred x in
  match Qcompare 0 r with
  | Eq => 0
  | Lt => round_pos r
  | Gt => - round_pos (- r)
  end.

(** [x] is a double. *)
Definition is_double (x : Q) : Prop := round64 x == x.

(** [x + y], [x - y], [x * y] and [x / y] on doubles. *)
Definition js_add (x y : Q) : Q := round64 (x + y).
Definition js_sub (x y : Q) : Q := round64 (x - y).
Definition js_mul (x y : Q) : Q := round64 (x * y).
Definition js_div (x y : Q) : Q := round64 (x / y).

(** *** The doubles of the standard library

    [SpecFloat] defines the IEEE operations on binary floating-point
    numbers; at a precision of 53 bits with [emax = 1024] they are the
    operations on doubles.  [checks] compares them with [js_add],
    [js_sub], [js_mul] and [js_div] on the doubles [a / b] of [samples],
    each with each. *)

Module Binary64.

Definition value (f : SpecFloat.spec_float) : option Q :=
  match f with
  | SpecFloat.S754_zero _ => Some 0
  | SpecFloat.S754_finite s m e =>
    Some ((if s then -1 else 1) * inject_Z (Zpos m) * 2 ^ e)
  | _ => None
  end.

Definition agree (f : SpecFloat.spec_float) (q : Q) : bool :=
  match value f with
  | Some x => Qeq_bool x q
  | None => false
  end.

Definition whole (n : Z) : SpecFloat.spec_float :=
  SpecFloat.binary_normalize 53 1024 n 0 false.

Definition quotient (ab : Z * Z) : SpecFloat.spec_float :=
  SpecFloat.SFdiv 53 1024 (whole (fst ab)) (whole (snd ab)).

Definition quotient64 (ab : Z * Z) : Q := js_div (inject_Z (fst ab)) (inject_Z (snd ab)).

Definition samples : list (Z * Z) :=
  [(0, 1); (1, 1); (1, 10); (2, 10); (3, 10); (23, 40); (17, 40); (50, 390);
   (1, 3); (2, 3); (7, 3); (-7, 3); (2500, 1); (5000, 1); (1, 10000000000000);
   (100, 1); (1000, 1); (86400, 1); (86400000, 1); (3600000, 1);
   (1699999999002, 1000); (1700557114319, 1000); (1699999999002, 1);
   (1700557114319, 1); (9007199254740991, 1); (9007199254740991, 2);
   (9007199254740989, 4); (9007199254740991, 3); (4503599627370497, 2);
   (4503599627370499, 2); (1, 9007199254740991); (1, 1125899906842624)]%Z.

Definition check (op : SpecFloat.spec_float -> SpecFloat.spec_float -> SpecFloat.spec_float)
           (op64 : Q -> Q -> Q) : bool :=
  forallb (fun xy => agree (op (quotient (fst xy)) (quotient (snd xy)))
                           (op64 (quotient64 (fst xy)) (quotient64 (snd xy))))
          (list_prod samples samples).

Definition check_div : bool :=
  forallb (fun xy => (fst (snd xy) =? 0)%Z
                     || agree (SpecFloat.SFdiv 53 1024 (quotient (fst xy))
                                               (quotient (snd xy)))
                              (js_div (quotient64 (fst xy)) (quotient64 (snd xy))))
          (list_prod samples samples).

(** Quotients and a product of [2 ^ -1020] that fall below [2 ^ -1022],
    where the doubles are the multiples of [2 ^ -1074]. *)
Definition tiny : SpecFloat.spec_float :=
  SpecFloat.S754_finite false 4503599627370496 (-1072).
Definition tiny64 : Q := 2 ^ (-1020).

Definition check_tiny : bool :=
  agree tiny tiny64
  && forallb (fun n => agree (SpecFloat.SFdiv 53 1024 tiny (whole n))
                             (js_div tiny64 (inject_Z n)))
             [3; 16; 123456789; 3000000000000000000;
              6004799503160661; 18014398509481984]%Z
  && agree (SpecFloat.SFmul 53 1024 tiny tiny) (js_mul tiny64 tiny64).

Definition checks : bool :=
  forallb (fun ab => agree (quotient ab) (quotient64 ab)) samples
  && check (SpecFloat.SFadd 53 1024) js_add
  && check (SpecFloat.SFsub 53 1024) js_sub
  && check (SpecFloat.SFmul 53 1024) js_mul
  && check_div
  && check_tiny.

End Binary64.

(** ** The session user (AuthContext) *)

Record User := mkUser {
  name : string;
  email : string;
  money : Q;
  trust : Q;
  pvt_cards : Q;
  loan : Q
}.

(** The value a pending [fetch(...).then(res => res.json())] settles to:
    a JSON body with an optional [error] member, or a rejection. *)
Inductive Reply :=
| Resolved (error : option string)
| Rejected.

(** [res.error] as a condition: a missing or empty string is falsy. *)
Definition reply_error (error : option string) : option string :=
  match error with
  | Some e => if String.eqb e "" then None else Some e
  | None => None
  end.

(** ** LoanPage *)

Module LoanPage.

(** The [number | ''] state of an amount input. *)
Inductive AmountField :=
| Blank
| Val (q : Q).

(** [!a] on an amount field: [''] and [0] are falsy. *)
Definition field_falsy (a : AmountField) : bool :=
  match a with
  | Blank => true
  | Val q => negb (js_truthy q)
  end.

(** [Number(a)]. *)
Definition Number (a : AmountField) : Q :=
  match a with
  | Blank => 0
  | Val q => q
  end.

Inductive MessageType := success | error.

(** The texts the page shows, one constructor per literal or template. *)
Inductive MessageText :=
| EnterValidAmount              (* 'Please enter a valid amount' *)
| InsufficientFunds             (* 'Insufficient funds' *)
| LoanLimitExceeded             (* 'Loan limit exceeded' *)
| ServerError (e : string)      (* res.error *)
| SuccessfullyRepaid (a : AmountField)    (* `Successfully repaid $${repayAmount}` *)
| SuccessfullyBorrowed (a : AmountField)  (* `Successfully borrowed $${borrowAmount}` *)
| RepaymentFailed               (* 'Repayment failed' *)
| LoanApplicationFailed.        (* 'Loan application failed' *)

Record Message := mkMessage { type : MessageType; text : MessageText }.

Record State := mkState {
  user : option User;
  repayAmount : AmountField;
  borrowAmount : AmountField;
  loading : bool;
  message : option Message
}.

(** The requests the page can send. *)
Inductive Request :=
| ApplyLoan (email : string) (amount : Q)
| RepayLoan (email : string) (amount : Q)
| GetUser (email : string).

(** The server as the page sees it.  [getUser] is [None] when the reply
    carries an error or the request fails; [refreshUser] then clears the
    session user. *)
Record Api := mkApi {
  applyLoan : string -> Q -> Reply;
  repayLoan : string -> Q -> Reply;
  getUser : string -> option User
}.

Definition userLoan (st : State) : Q :=
  match user st with Some u => js_or (loan u) 0 | None => 0 end.
Definition userMoney (st : State) : Q :=
  match user st with Some u => js_or (money u) 0 | None => 0 end.
Definition userTrust (st : State) : Q :=
  match user st with Some u => js_or (trust u) 0 | None => 0 end.

(** The [if]/[else if] chain on the trust score. *)
Definition loanLimitMultiplier (st : State) : Q :=
  if js_lt (userTrust st) 50 then 0
  else if js_lt (userTrust st) 300 then (2 # 10)
  else if js_lt (userTrust st) 500 then (5 # 10)
  else if js_lt (userTrust st) 700 then 1
  else if js_lt (userTrust st) 850 then (15 # 10)
  else 2.

Definition baseLimit : Q := 2500.
Definition calculatedLimit (st : State) : Q := baseLimit * loanLimitMultiplier st.
Definition loanLimit (st : State) : Q := Math_min (calculatedLimit st) 5000.

Definition setMessage (st : State) (m : option Message) : State :=
  mkState (user st) (repayAmount st) (borrowAmount st) (loading st) m.

(** [refreshUser()], called with a session user: one [getUser] request whose
    answer replaces the session user. *)
Definition refreshUser (api : Api) (u : User) : option User * list Request :=
  (getUser api (email u), [GetUser (email u)]).

Definition handleRepay (api : Api) (st : State) : State * list Request :=
  match user st with
  | None => (st, [])
  | Some u =>
    if field_falsy (repayAmount st) || js_le (Number (repayAmount st)) 0 then
      (setMessage st (Some (mkMessage error EnterValidAmount)), [])
    else if js_gt (Number (repayAmount st)) (userMoney st) then
      (setMessage st (Some (mkMessage error InsufficientFunds)), [])
    else
      let req := RepayLoan (email u) (Number (repayAmount st)) in
      match repayLoan api (email u) (Number (repayAmount st)) with
      | Resolved err =>
        match reply_error err with
        | Some e =>
          (mkState (user st) (repayAmount st) (borrowAmount st) false
                   (Some (mkMessage error (ServerError e))), [req])
        | None =>
          let (u', reqs) := refreshUser api u in
          (mkState u' Blank (borrowAmount st) false
                   (Some (mkMessage success (SuccessfullyRepaid (repayAmount st)))),
           req :: reqs)
        end
      | Rejected =>
        (mkState (user st) (repayAmount st) (borrowAmount st) false
                 (Some (mkMessage error RepaymentFailed)), [req])
      end
  end.

Definition handleBorrow (api : Api) (st : State) : State * list Request :=
  match user st with
  | None => (st, [])
  | Some u =>
    if field_falsy (borrowAmount st) || js_le (Number (borrowAmount st)) 0 then
      (setMessage st (Some (mkMessage error EnterValidAmount)), [])
    else if js_gt (js_add (userLoan st) (Number (borrowAmount st))) (loanLimit st) then
      (setMessage st (Some (mkMessage error LoanLimitExceeded)), [])
    else
      let req := ApplyLoan (email u) (Number (borrowAmount st)) in
      match applyLoan api (email u) (Number (borrowAmount st)) with
      | Resolved err =>
        match reply_error err with
        | Some e =>
          (mkState (user st) (repayAmount st) (borrowAmount st) false
                   (Some (mkMessage error (ServerError e))), [req])
        | None =>
          let (u', reqs) := refreshUser api u in
          (mkState u' (repayAmount st) Blank false
                   (Some (mkMessage success (SuccessfullyBorrowed (borrowAmount st)))),
           req :: reqs)
        end
      | Rejected =>
        (mkState (user st) (repayAmount st) (borrowAmount st) false
                 (Some (mkMessage error LoanApplicationFailed)), [req])
      end
  end.

(** The MAX button of the repay form:
    [setRepayAmount(userMoney > userLoan ? userLoan : userMoney)]. *)
Definition clickMax (st : State) : State :=
  mkState (user st)
          (Val (if js_gt (userMoney st) (userLoan st) then userLoan st else userMoney st))
          (borrowAmount st) (loading st) (message st).

(** The tier table as the specification words it: the multiplier [m] that
    belongs to the trust score [t]. *)
Definition tierMultiplier (t m : Q) : Prop :=
  (t < 50 /\ m == 0) \/
  (50 <= t /\ t < 300 /\ m == (2 # 10)) \/
  (300 <= t /\ t < 500 /\ m == (5 # 10)) \/
  (500 <= t /\ t < 700 /\ m == 1) \/
  (700 <= t /\ t < 850 /\ m == (15 # 10)) \/
  (850 <= t /\ m == 2).

(** A page state for a signed-in user and sample servers, for the examples. *)
Definition alice : User := mkUser "Alice" "alice@example.com" 100 600 0 2000.

Definition accepting : Api :=
  mkApi (fun _ _ => Resolved None) (fun _ _ => Resolved None)
        (fun _ => Some alice).

Definition page (u : User) (repay borrow : AmountField) : State :=
  mkState (Some u) repay borrow false None.

(** A user whose loan has reached the limit of 2500, and the amount of
    [1e-13] typed into the borrow form. *)
Definition carol : User := mkUser "Carol" "carol@example.com" 100 600 0 2500.

Definition typed_1e_13 : Q := round64 (1 # 10000000000000).

End LoanPage.

(** ** Markets as the server sends them

    [participants] and [outcomes] are the arrays a page works on, whether
    the record holds them as arrays or as JSON text that the page parses.
    [status] is the text the server sends; [base_price] may be absent. *)

Module Participant.
Record t := mk {
  user : string;
  prediction : string;
  amount : Q
}.
End Participant.

Module Bet.
Record t := mk {
  id : string;
  creator : string;
  status : string;
  result : option string;
  pool : Q;
  base_price : option Q;
  participants : list Participant.t;
  outcomes : list string
}.
End Bet.

(** [ps.filter(p => p.prediction === outcome).reduce((sum, p) => sum + p.amount, 0)],
    the expression both MarketDetail and the pool row use, as the exact sum
    of the amounts. *)
Definition sideAmount (ps : list Participant.t) (outcome : string) : Q :=
  fold_left (fun sum p => sum + Participant.amount p)
            (filter (fun p => String.eqb (Participant.prediction p) outcome) ps)
            0.

(** The same expression with every addition rounded to a double, as the
    source evaluates it. *)
Definition sideAmount64 (ps : list Participant.t) (outcome : string) : Q :=
  fold_left (fun sum p => js_add sum (Participant.amount p))
            (filter (fun p => String.eqb (Participant.prediction p) outcome) ps)
            0.

(** No running sum of the stakes on an outcome of the market needs
    rounding: the source's sum is the exact one. *)
Definition exact_sums (b : Bet.t) : Prop :=
  forall o, In o (Bet.outcomes b) ->
            sideAmount64 (Bet.participants b) o == sideAmount (Bet.participants b) o.

(** The stakes are whole amounts, none negative. *)
Definition whole_stakes (ps : list Participant.t) : Prop :=
  Forall (fun p => exists n, (0 <= n)%Z /\ Participant.amount p == inject_Z n) ps.

(** Stakes of [0.1] and [0.2] on Yes, as the doubles these texts denote. *)
Definition tenths : list Participant.t :=
  [Participant.mk "x@example.com" "Yes" (round64 (1 # 10));
   Participant.mk "y@example.com" "Yes" (round64 (2 # 10))].

(** ** MarketDetail *)

Module MarketDetail.

Inductive BettingError :=
| NoError                       (* '' *)
| PleaseLogin                   (* "Please login to place a bet." *)
| InvalidAmount                 (* "Invalid amount." *)
| MinimumBetIs (shown : Q)      (* `Minimum bet is $${bet.base_price || 10}` *)
| InsufficientFunds             (* "Insufficient funds." *)
| ServerError (e : string)      (* res.error *)
| FailedToPlaceBet.             (* "Failed to place bet." *)

Record State := mkState {
  user : option User;
  bet : Bet.t;
  prediction : string;
  amount : string;
  bettingError : BettingError;
  placingBet : bool
}.

Record Payload := mkPayload {
  bet_id : string;
  payload_email : string;
  payload_amount : Q;
  payload_prediction : string
}.

Inductive Request :=
| JoinBet (payload : Payload)
| GetUser (email : string)
| GetBet (id : string).

(** The server as the page sees it; [getBet] is [None] when the request
    fails. *)
Record Api := mkApi {
  joinBet : Payload -> Reply;
  getUser : string -> option User;
  getBet : string -> option Bet.t
}.

Record OutcomeStat := mkStat {
  outcome : string;
  count : nat;
  percent : Z;
  stat_amount : Q
}.

(** [bet.base_price || d]. *)
Definition base_price_or (b : Bet.t) (d : Q) : Q :=
  match Bet.base_price b with
  | Some m => js_or m d
  | None => d
  end.

(** The [percent] the page computes for an outcome from the total
    [totalAmount] staked on it. *)
Definition percentOfPool (b : Bet.t) (totalAmount : Q) : Z :=
  if js_gt (Bet.pool b) 0 then
    Math_round (js_mul (js_div totalAmount (Bet.pool b)) 100)
  else if (0 <? List.length (Bet.outcomes b))%nat then
    Math_round (js_div 100 (inject_Z (Z.of_nat (List.length (Bet.outcomes b)))))
  else 0%Z.

(** The per-outcome statistics, "based on volume (amount)". *)
Definition outcomeStats (b : Bet.t) : list OutcomeStat :=
  map (fun outcome =>
         let totalAmount := sideAmount (Bet.participants b) outcome in
         let percent := percentOfPool b totalAmount in
         mkStat outcome
                (List.length (filter (fun p => String.eqb (Participant.prediction p) outcome)
                                (Bet.participants b)))
                percent totalAmount)
      (Bet.outcomes b).

(** [user && participants.some(p => p.user === user.email)]. *)
Definition hasBet (st : State) : bool :=
  match user st with
  | Some u => existsb (fun p => String.eqb (Participant.user p) (email u))
                      (Bet.participants (bet st))
  | None => false
  end.

(** The figure under "Est. Payout", before [toFixed(2)]; the panel is shown
    for a chosen outcome and a positive amount. *)
Definition estPayout (b : Bet.t) (prediction : string) (betAmount : Q) : Q :=
  let outcomePool :=
    match find (fun s => String.eqb (outcome s) prediction) (outcomeStats b) with
    | Some s => stat_amount s
    | None => 0
    end in
  let totalPool := js_or (Bet.pool b) 0 in
  let newOutcomePool := outcomePool + betAmount in
  let newTotalPool := totalPool + betAmount in
  if Qeq_bool newOutcomePool 0 then betAmount
  else
    let share := betAmount / newOutcomePool in
    share * newTotalPool.

Definition setBettingError (st : State) (e : BettingError) : State :=
  mkState (user st) (bet st) (prediction st) (amount st) e (placingBet st).

(** The [disabled] attribute of the Place Bet button. *)
Definition placeBetDisabled (st : State) : bool :=
  placingBet st
  || negb (String.eqb (Bet.status (bet st)) "OPEN")
  || String.eqb (prediction st) ""
  || hasBet st.

(** The caption of the Place Bet button. *)
Definition placeBetLabel (st : State) : string :=
  if placingBet st then "Placing Bet..."
  else if hasBet st then "Already Bet"
  else if String.eqb (Bet.status (bet st)) "OPEN" then "Place Bet"
  else "Market Closed".

Section Handlers.

(** [parseFloat] of the text of the amount input; [None] is [NaN]. *)
Variable parseFloat : string -> option Q.

Definition handlePlaceBet (api : Api) (st : State) : State * list Request :=
  match user st with
  | None => (setBettingError st PleaseLogin, [])
  | Some u =>
    match parseFloat (amount st) with
    | None => (setBettingError st InvalidAmount, [])
    | Some betAmount =>
      if js_le betAmount 0 then
        (setBettingError st InvalidAmount, [])
      else if js_lt betAmount (base_price_or (bet st) 0) then
        (setBettingError st (MinimumBetIs (base_price_or (bet st) 10)), [])
      else if js_lt (money u) betAmount then
        (setBettingError st InsufficientFunds, [])
      else
        let payload := mkPayload (Bet.id (bet st)) (email u) betAmount (prediction st) in
        match joinBet api payload with
        | Resolved err =>
          match reply_error err with
          | Some e =>
            (mkState (user st) (bet st) (prediction st) (amount st)
                     (ServerError e) false,
             [JoinBet payload])
          | None =>
            let reqs := [JoinBet payload; GetUser (email u); GetBet (Bet.id (bet st))] in
            match getBet api (Bet.id (bet st)) with
            | Some updatedBet =>
              (mkState (getUser api (email u)) updatedBet (prediction st) ""
                       NoError false, reqs)
            | None =>
              (mkState (getUser api (email u)) (bet st) (prediction st) ""
                       FailedToPlaceBet false, reqs)
            end
          end
        | Rejected =>
          (mkState (user st) (bet st) (prediction st) (amount st)
                   FailedToPlaceBet false,
           [JoinBet payload])
        end
    end
  end.

(** A click on the Place Bet button: a disabled button runs no handler. *)
Definition clickPlaceBet (api : Api) (st : State) : State * list Request :=
  if placeBetDisabled st then (st, []) else handlePlaceBet api st.

End Handlers.

(** The amount is below the minimum stake the market states. *)
Definition belowMinimum (b : Bet.t) (a : Q) : Prop :=
  exists m, Bet.base_price b = Some m /\ a < m.

(** The page reports an error for the stake attempt. *)
Definition reports_error (st : State) : Prop := bettingError st <> NoError.

(** Sample data: a binary market with 100 on Yes and 50 on No. *)
Definition ann : User := mkUser "Ann" "ann@example.com" 200 1000 0 0.
Definition bob : User := mkUser "Bob" "bob@example.com" 40 1000 0 0.
Definition cy : User := mkUser "Cy" "cy@example.com" 75 1000 0 0.

Definition market : Bet.t :=
  Bet.mk "m1" "host@example.com" "OPEN" None 150 (Some 10)
         [Participant.mk "ann@example.com" "Yes" 100;
          Participant.mk "bob@example.com" "No" 50]
         ["Yes"; "No"].

(** Ann's stake of 100 on Yes, in the market of the specification's
    scenario. *)
Definition ann_stake : Participant.t := Participant.mk "ann@example.com" "Yes" 100.

Definition empty_market : Bet.t :=
  Bet.mk "m2" "host@example.com" "OPEN" None 0 (Some 10) [] ["Yes"; "No"; "Draw"].

Definition accepting : Api :=
  mkApi (fun _ => Resolved None) (fun _ => Some cy) (fun _ => Some market).

(** A [parseFloat] for the amounts typed in the examples. *)
Definition parse_sample (s : string) : option Q :=
  if String.eqb s "0" then Some 0
  else if String.eqb s "5" then Some 5
  else if String.eqb s "50" then Some 50
  else if String.eqb s "60" then Some 60
  else None.

Definition page (u : User) (b : Bet.t) (typed : string) : State :=
  mkState (Some u) b "Yes" typed NoError false.

End MarketDetail.

(** ** Untyped JSON values

    [getStats] takes [bet: any]; its behaviour on records of any shape
    needs the values themselves.  Objects and arrays are trees: two of them
    are never the same reference, as they come from separate places of a
    JSON text. *)

Module JS.

Inductive Value :=
| Undefined
| Null
| Bool (b : bool)
| Num (q : Q)
| Str (s : string)
| Arr (items : list Value)
| Obj (fields : list (string * Value)).

Inductive Error := TypeError | SyntaxError.

(** The outcome of evaluating an expression that may throw. *)
Inductive Completion (A : Type) :=
| Normal (a : A)
| Throw (e : Error).
Arguments Normal {A} a.
Arguments Throw {A} e.

Definition bind {A B} (c : Completion A) (k : A -> Completion B) : Completion B :=
  match c with
  | Normal a => k a
  | Throw e => Throw e
  end.

Notation "x <- c ;; k" := (bind c (fun x => k))
  (at level 61, c at next level, right associativity).

Fixpoint mapM {A B} (f : A -> Completion B) (l : list A) : Completion (list B) :=
  match l with
  | [] => Normal []
  | a :: r => b <- f a ;; bs <- mapM f r ;; Normal (b :: bs)
  end.

Fixpoint filterM {A} (f : A -> Completion bool) (l : list A) : Completion (list A) :=
  match l with
  | [] => Normal []
  | a :: r => keep <- f a ;; rest <- filterM f r ;;
              Normal (if keep then a :: rest else rest)
  end.

Definition truthy (v : Value) : bool :=
  match v with
  | Undefined | Null => false
  | Bool b => b
  | Num q => js_truthy q
  | Str s => negb (String.eqb s "")
  | Arr _ | Obj _ => true
  end.

(** [v || d]. *)
Definition or (v d : Value) : Value := if truthy v then v else d.

Definition isArray (v : Value) : bool :=
  match v with Arr _ => true | _ => false end.

Fixpoint lookup (fields : list (string * Value)) (key : string) : Value :=
  match fields with
  | [] => Undefined
  | (k, v) :: r => if String.eqb k key then v else lookup r key
  end.

Definition nat_num (n : nat) : Value := Num (inject_Z (Z.of_nat n)).

(** [v.key] for a data property: a [TypeError] on [undefined] and [null],
    [length] on arrays and strings, the member of an object, [undefined]
    otherwise. *)
Definition get (v : Value) (key : string) : Completion Value :=
  match v with
  | Undefined | Null => Throw TypeError
  | Obj fields => Normal (lookup fields key)
  | Arr items =>
    Normal (if String.eqb key "length" then nat_num (List.length items) else Undefined)
  | Str s =>
    Normal (if String.eqb key "length" then nat_num (String.length s) else Undefined)
  | Bool _ | Num _ => Normal Undefined
  end.

(** [v === w]. *)
Definition strict_eq (v w : Value) : bool :=
  match v, w with
  | Undefined, Undefined => true
  | Null, Null => true
  | Bool a, Bool b => Bool.eqb a b
  | Num a, Num b => Qeq_bool a b
  | Str a, Str b => String.eqb a b
  | _, _ => false
  end.

(** [v.map(f)] and [v.filter(f)]: only arrays have these methods; calling
    them on anything else is a [TypeError]. *)
Definition array_map {B} (f : Value -> Completion B) (v : Value) : Completion (list B) :=
  match v with
  | Arr items => mapM f items
  | _ => Throw TypeError
  end.

Definition array_filter (f : Value -> Completion bool) (v : Value) : Completion (list Value) :=
  match v with
  | Arr items => filterM f items
  | _ => Throw TypeError
  end.

End JS.

(** ** PublicDashboard *)

Module PublicDashboard.
Import JS.

Record Stat := mkStat { name : Value; percent : Z }.

(** The text ['["Yes", "No"]']. *)
Definition dq : string := String "034"%char EmptyString.
Definition default_outcomes : string :=
  "[" ++ dq ++ "Yes" ++ dq ++ ", " ++ dq ++ "No" ++ dq ++ "]".

(** The answer of [api.getBets()]. *)
Inductive Response :=
| Failed
| NotAnArray
| Markets (l : list Bet.t).

Definition isCompleted (b : Bet.t) : bool :=
  String.eqb (Bet.status b) "RESULT_DECLARED" || String.eqb (Bet.status b) "CLOSED".

Definition isActive (b : Bet.t) : bool :=
  negb (String.eqb (Bet.status b) "RESULT_DECLARED")
  && negb (String.eqb (Bet.status b) "CLOSED").

(** The status of a market that has ended. *)
Definition completedStatus (b : Bet.t) : Prop :=
  Bet.status b = "RESULT_DECLARED" \/ Bet.status b = "CLOSED".

(** [active] and [completed] split [fetched] by status: together they hold
    the fetched markets, each once, and a fetched market is in [completed]
    exactly when its status is RESULT_DECLARED or CLOSED. *)
Definition splits_by_status (fetched active completed : list Bet.t) : Prop :=
  Permutation (active ++ completed) fetched
  /\ (forall b, In b completed <-> In b fetched /\ completedStatus b)
  /\ (forall b, In b active <-> In b fetched /\ ~ completedStatus b).

(** [fetchBets]: the pair of lists passed to [setBets] and
    [setCompletedBets]. *)
Definition fetchBets (data : Response) : list Bet.t * list Bet.t :=
  match data with
  | Failed => ([], [])
  | NotAnArray | Markets _ =>
    let allBets := match data with Markets l => l | _ => [] end in
    let active := filter isActive allBets in
    let completed := filter isCompleted allBets in
    (active, completed)
  end.

Section GetStats.

(** [JSON.parse(v)], the argument converted to a string first; a text that
    is not JSON throws a [SyntaxError]. *)
Variable JSON_parse : Value -> Completion Value.

(** [Array.isArray(field) ? field : JSON.parse(field || dflt)]. *)
Definition read (field : Value) (dflt : string) : Completion Value :=
  if isArray field then Normal field else JSON_parse (or field (Str dflt)).

(** The body of the [try] block. *)
Definition readFields (bet : Value) : Completion (Value * Value) :=
  field <- get bet "participants" ;;
  participants <- read field "[]" ;;
  field' <- get bet "outcomes" ;;
  outcomes <- read field' default_outcomes ;;
  Normal (participants, outcomes).

(** The [try]/[catch]: what [participants] and [outcomes] hold after it. *)
Definition parsedFields (bet : Value) : Value * Value :=
  match readFields bet with
  | Normal po => po
  | Throw _ => (Arr [], Arr [Str "Yes"; Str "No"])
  end.

(** [Math.round((count / total) * 100)]; [total] is the length of an array,
    as the [filter] that yields [count] has succeeded. *)
Definition percentOf (count : nat) (total : Value) : Z :=
  match total with
  | Num t => Math_round (js_mul (js_div (inject_Z (Z.of_nat count)) t) 100)
  | _ => 0%Z
  end.

Definition getStats (bet : Value) : Completion (list Stat) :=
  let (participants, outcomes) := parsedFields bet in
  total <- get participants "length" ;;
  if strict_eq total (Num 0) then
    array_map (fun o => Normal (mkStat o 0)) outcomes
  else
    array_map (fun outcome =>
                 matching <- array_filter
                               (fun p => pr <- get p "prediction" ;;
                                         Normal (strict_eq pr outcome))
                               participants ;;
                 let count := List.length matching in
                 Normal (mkStat outcome (percentOf count total)))
              outcomes.

End GetStats.

(** [p.key] where it does not throw. *)
Definition member (p : Value) (key : string) : Value :=
  match get p key with
  | Normal v => v
  | Throw _ => Undefined
  end.

(** A value whose members can be read. *)
Definition readable (p : Value) : Prop := p <> Undefined /\ p <> Null.

(** The statistics entry [getStats] builds for an outcome, when both fields
    are arrays. *)
Definition entry (ps : list Value) (outcome : Value) : Stat :=
  match ps with
  | [] => mkStat outcome 0
  | _ :: _ =>
    mkStat outcome
           (percentOf
              (List.length
                 (filter (fun p => strict_eq (member p "prediction") outcome) ps))
              (nat_num (List.length ps)))
  end.

(** A market record as a JSON value, with array-valued fields. *)
Definition participant_value (p : Participant.t) : Value :=
  Obj [("user", Str (Participant.user p));
       ("prediction", Str (Participant.prediction p));
       ("amount", Num (Participant.amount p))].

Definition bet_value (b : Bet.t) : Value :=
  Obj [("id", Str (Bet.id b));
       ("creator", Str (Bet.creator b));
       ("status", Str (Bet.status b));
       ("pool", Num (Bet.pool b));
       ("participants", Arr (map participant_value (Bet.participants b)));
       ("outcomes", Arr (map Str (Bet.outcomes b)))].

(** A [JSON.parse] that knows the two default texts and rejects the rest. *)
Definition parse_defaults (v : Value) : Completion Value :=
  match v with
  | Str s =>
    if String.eqb s "[]" then Normal (Arr [])
    else if String.eqb s default_outcomes then Normal (Arr [Str "Yes"; Str "No"])
    else Throw SyntaxError
  | _ => Throw SyntaxError
  end.

(** A record whose [participants] text is not JSON. *)
Definition broken_record : Value :=
  Obj [("participants", Str "{bad"); ("outcomes", Arr [Str "A"; Str "B"])].

(** A record with a [null] in its participant list. *)
Definition null_participant : Value :=
  Obj [("participants", Arr [Null]); ("outcomes", Arr [Str "Yes"; Str "No"])].

End PublicDashboard.

(** ** PrivateDashboard *)

Module PrivateDashboard.

(** [s.toLowerCase()] and [s.trim()], on ASCII text. *)
Definition lower_char (c : ascii) : ascii :=
  let n := Ascii.nat_of_ascii c in
  if ((65 <=? n) && (n <=? 90))%nat then Ascii.ascii_of_nat (n + 32) else c.

Fixpoint toLowerCase (s : string) : string :=
  match s with
  | EmptyString => EmptyString
  | String c r => String (lower_char c) (toLowerCase r)
  end.

Definition is_space (c : ascii) : bool :=
  let n := Ascii.nat_of_ascii c in
  ((n =? 32) || ((9 <=? n) && (n <=? 13)))%nat.

Fixpoint trimStart (s : string) : string :=
  match s with
  | EmptyString => EmptyString
  | String c r => if is_space c then trimStart r else s
  end.

Fixpoint trimEnd (s : string) : string :=
  match s with
  | EmptyString => EmptyString
  | String c r =>
    let r' := trimEnd r in
    if is_space c && String.eqb r' "" then EmptyString else String c r'
  end.

Definition trim (s : string) : string := trimEnd (trimStart s).

Definition sameUser (a b : string) : bool :=
  String.eqb (trim (toLowerCase a)) (trim (toLowerCase b)).

(** The pool row's "Return" figure, before [toFixed(2)]. *)
Definition potentialReturn (pool : Bet.t) (userEmail : string) : Q :=
  let participants := Bet.participants pool in
  match find (fun p => sameUser (Participant.user p) userEmail) participants with
  | Some userBetObj =>
    let userBet := Participant.prediction userBetObj in
    let sideTotal := sideAmount participants userBet in
    if js_gt sideTotal 0 then (Participant.amount userBetObj / sideTotal) * Bet.pool pool
    else 0
  | None => 0
  end.

Record Pools := mkPools {
  createdPools : list Bet.t;
  joinedPools : list Bet.t;
  completedPools : list Bet.t
}.

(** [fetchData]: the three lists it stores for the markets [betsArray] of
    the signed-in user. *)
Definition fetchData (userEmail : string) (betsArray : list Bet.t) : Pools :=
  let created := filter (fun b => sameUser (Bet.creator b) userEmail) betsArray in
  let allJoined := filter (fun b => negb (sameUser (Bet.creator b) userEmail)) betsArray in
  let completed := filter PublicDashboard.isCompleted allJoined in
  let joined := filter PublicDashboard.isActive allJoined in
  mkPools created joined completed.

(** A market the signed-in host created and closed. *)
Definition own_closed : Bet.t :=
  Bet.mk "m3" "host@example.com" "CLOSED" None 0 (Some 10) [] ["Yes"; "No"].

End PrivateDashboard.

(** ** Settlement

    Modelled from the spec: the settlement engine runs on the server, whose
    code is not among the client sources.  Section 4.3 of the
    specification, steps 4 and 5, for a declared winning outcome [W]. *)

Module Settlement.

(** The sum of all stake amounts on an outcome. *)
Fixpoint stakeOn (ps : list Participant.t) (o : string) : Q :=
  match ps with
  | [] => 0
  | p :: r =>
    if String.eqb (Participant.prediction p) o
    then Participant.amount p + stakeOn r o
    else stakeOn r o
  end.

Definition losePool (pool winPool : Q) : Q := pool - winPool.

(** 60% of the losing pool is distributed to the winners. *)
Definition winnerPool (pool winPool : Q) : Q := (60 # 100) * losePool pool winPool.

(** A winner: the stake back in full plus the pro-rata share of the winner
    pool. *)
Definition winnerAmount (pool winPool stake : Q) : Q :=
  stake + (stake / winPool) * winnerPool pool winPool.

(** A loser: 40% of the stake. *)
Definition loserRefund (stake : Q) : Q := (40 # 100) * stake.

(** What a participant receives when [W] is declared on a market with
    total [pool]. *)
Definition payout (pool : Q) (ps : list Participant.t) (W : string)
           (p : Participant.t) : Q :=
  if String.eqb (Participant.prediction p) W
  then winnerAmount pool (stakeOn ps W) (Participant.amount p)
  else loserRefund (Participant.amount p).

End Settlement.

(** ** The specification's live odds

    Section 4.2 in its own words: the odds of an outcome are its stake over
    the pool total, or an equal split of [1/N] when the pool total is 0;
    shown as a percentage.  Beside them, the two figures the pages show in
    their place, in terms of the stakes and of the participants. *)

Module Odds.

Definition liveOdds (b : Bet.t) (o : string) : Q :=
  if Qeq_bool (Bet.pool b) 0
  then 1 / inject_Z (Z.of_nat (List.length (Bet.outcomes b)))
  else Settlement.stakeOn (Bet.participants b) o / Bet.pool b.

(** The whole percentages a page shows, one per outcome in order, are the
    live odds. *)
Definition shows_live_odds (b : Bet.t) (percents : list Z) : Prop :=
  percents = map (fun o => Math_round (liveOdds b o * 100)) (Bet.outcomes b).

(** The whole percentage that [x] is of [y], as the two pages compute it:
    the quotient and its product with 100 are doubles, and the product is
    rounded to the nearest whole number. *)
Definition percentage (x y : Q) : Z := Math_round (js_mul (js_div x y) 100).




(** A market of 40 with 23 on Yes and 17 on No, in stakes of 1 and of 23
    and 17. *)
Definition forty_singles : Bet.t :=
  Bet.mk "m5" "host@example.com" "OPEN" None 40 (Some 1)
         (repeat (Participant.mk "x@example.com" "Yes" 1) 23
          ++ repeat (Participant.mk "y@example.com" "No" 1) 17)
         ["Yes"; "No"].

Definition forty_in_two : Bet.t :=
  Bet.mk "m6" "host@example.com" "OPEN" None 40 (Some 1)
         [Participant.mk "x@example.com" "Yes" 23;
          Participant.mk "y@example.com" "No" 17]
         ["Yes"; "No"].

End Odds.

(** ** LoanPage: the due date of the loan *)

Module LoanDue.

(** The user record with the loan fields the page reads besides those of
    [User]; each may be absent. *)
Record LoanUser := mkLoanUser {
  base : User;
  loan_interest_rate : option Q;
  loan_due_date : option Q;
  loan_total_interest : option Q
}.

Inductive DueDate :=
| InDays (diffDays : Z)         (* `In ${diffDays} Days` *)
| Overdue                       (* "Overdue" *)
| NoActiveLoan.                 (* "No active loan" *)

(** [Math.ceil(x)]. *)
Definition Math_ceil (x : Q) : Z := Qceiling x.

(** [dueDateString], for [Date.now()] equal to [now_ms] milliseconds. *)
Definition dueDateString (user : option LoanUser) (now_ms : Q) : DueDate :=
  match user with
  | Some u =>
    match loan_due_date u with
    | Some due =>
      if js_truthy due && js_gt (loan (base u)) 0 then
        let now := js_div now_ms 1000 in
        let diffSeconds := js_sub due now in
        let diffDays := Math_ceil (js_div diffSeconds 86400) in
        if (0 <? diffDays)%Z then InDays diffDays else Overdue
      else NoActiveLoan
    | None => NoActiveLoan
    end
  | None => NoActiveLoan
  end.

(** A borrower whose loan of 2000 is due at second 1,000,000. *)
Definition borrower : LoanUser :=
  mkLoanUser LoanPage.alice None (Some 1000000) None.

End LoanDue.

(** ** MarketDetail: the stakes of a market and the likes *)

Module QuickBet.


End QuickBet.

Module CommentLikes.

(** A comment of a market; [id] and [likes] may be absent. *)
Record Comment := mkComment {
  id : option string;
  user : string;
  name : string;
  text : string;
  timestamp : Q;
  likes : option (list string)
}.

(** [likes.includes(email)]. *)
Definition includes (likes : list string) (email : string) : bool :=
  existsb (fun e => String.eqb e email) likes.

(** [likes.filter(e => e !== email)]. *)
Definition without (likes : list string) (email : string) : list string :=
  filter (fun e => negb (String.eqb e email)) likes.

(** [c.likes || []]. *)
Definition likes_or_empty (c : Comment) : list string :=
  match likes c with Some l => l | None => [] end.

(** The list [handleLike] passes to [setBet] for the signed-in user [email]
    and the comment [commentId], before the request is sent. *)
Definition updatedComments (email commentId : string)
           (currentComments : list Comment) : list Comment :=
  map (fun c =>
         match id c with
         | Some i =>
           if String.eqb i commentId then
             let likes := likes_or_empty c in
             let isLiked := includes likes email in
             let newLikes :=
               if isLiked then without likes email else (likes ++ [email])%list in
             mkComment (id c) (user c) (name c) (text c) (timestamp c) (Some newLikes)
           else c
         | None => c
         end)
      currentComments.

(** How one comment changes under a like of [email] on [commentId]. *)
Definition toggled (email commentId : string) (c c' : Comment) : Prop :=
  if match id c with Some i => String.eqb i commentId | None => false end
  then
    id c' = id c /\ user c' = user c /\ name c' = name c /\ text c' = text c
    /\ timestamp c' = timestamp c
    /\ (exists l', likes c' = Some l'
          /\ includes l' email = negb (includes (likes_or_empty c) email)
          /\ without l' email = without (likes_or_empty c) email)
  else c' = c.

Definition thread : list Comment :=
  [mkComment (Some "c1") "ann@example.com" "Ann" "Yes for sure" 10
             (Some ["bob@example.com"; "cy@example.com"]);
   mkComment (Some "c2") "bob@example.com" "Bob" "No way" 20 None].

End CommentLikes.

(** ** PublicDashboard: the time left and the filters *)

Module Countdown.

Inductive EndsIn :=
| Ended                         (* 'Ended' *)
| Days (days : Z)               (* `${days} days` *)
| Hours (hours : Z).            (* `${hours} hours` *)

(** [Math.floor(x)]. *)
Definition Math_floor (x : Q) : Z := Qfloor x.

(** [getEndsIn], for [Date.now()] equal to [now_ms] milliseconds. *)
Definition getEndsIn (now_ms : Q) (endTimeTimestamp : Q) : EndsIn :=
  let diff := js_sub (js_mul endTimeTimestamp 1000) now_ms in
  if js_le diff 0 then Ended
  else
    let days := Math_floor (js_div diff (1000 * 60 * 60 * 24)) in
    if (0 <? days)%Z then Days days
    else
      let hours := Math_floor (js_div diff (1000 * 60 * 60)) in
      Hours hours.

End Countdown.

Module Filters.

(** A market with the fields the filters read. *)
Record Listing := mkListing {
  listed : Bet.t;
  title : string;
  category : option string
}.

(** [s.includes(q)] on texts. *)
Fixpoint includes (s q : string) : bool :=
  String.prefix q s
  || match s with
     | EmptyString => false
     | String _ r => includes r q
     end.

(** [!bet.category]. *)
Definition no_category (b : Listing) : bool :=
  match category b with
  | Some c => String.eqb c ""
  | None => true
  end.

(** The predicate of [filteredBets] and [filteredCompletedBets]. *)
Definition matches (searchQuery selectedCategory : string) (b : Listing) : bool :=
  let matchesSearch :=
    includes (PrivateDashboard.toLowerCase (title b))
             (PrivateDashboard.toLowerCase searchQuery) in
  let matchesCategory :=
    String.eqb selectedCategory "All"
    || match category b with
       | Some c => String.eqb c selectedCategory
       | None => false
       end
    || (String.eqb selectedCategory "Sports" && no_category b) in
  matchesSearch && matchesCategory.

Definition filteredBets (searchQuery selectedCategory : string)
           (bets : list Listing) : list Listing :=
  filter (matches searchQuery selectedCategory) bets.

End Filters.

(** ** PrivateDashboard: joining a pool by code *)

Module JoinPool.

Inductive JoinError :=
| NoError                       (* '' *)
| PleaseFill                    (* "Please fill in amount and select a choice" *)
| ServerError (e : string)      (* res.error *)
| FailedToJoin.                 (* "Failed to join." *)

Inductive JoinSuccess :=
| NoSuccess                     (* '' *)
| Joined.                       (* "Successfully joined pool!" *)

(** The join form; [isLoadingBet] belongs to the search by code and is
    left out. *)
Record State := mkState {
  joinCode : string;
  betPreview : option Bet.t;
  joinAmount : string;
  joinPrediction : string;
  joinError : JoinError;
  joinSuccess : JoinSuccess
}.

(** The body of the join request; [amount] is [None] for [NaN]. *)
Record Payload := mkPayload {
  payload_email : option string;
  bet_code : string;
  payload_amount : option Q;
  payload_prediction : string
}.

(** What the handler does besides updating the form: the request, and the
    call of [fetchData()] that reloads the lists of the dashboard. *)
Inductive Effect :=
| JoinPrivateBet (payload : Payload)
| FetchData.

Definition handleResetJoinFlow (st : State) : State :=
  mkState "" None "" "" NoError NoSuccess.

Section Handler.
Variable parseFloat : string -> option Q.

Definition handleJoin (joinPrivateBet : Payload -> Reply) (user : option User)
           (st : State) : State * list Effect :=
  if String.eqb (joinAmount st) "" || String.eqb (joinPrediction st) "" then
    (mkState (joinCode st) (betPreview st) (joinAmount st) (joinPrediction st)
             PleaseFill (joinSuccess st), [])
  else
    let payload :=
      mkPayload (option_map email user) (joinCode st)
                (parseFloat (joinAmount st)) (joinPrediction st) in
    match joinPrivateBet payload with
    | Resolved err =>
      match reply_error err with
      | Some e =>
        (mkState (joinCode st) (betPreview st) (joinAmount st) (joinPrediction st)
                 (ServerError e) NoSuccess,
         [JoinPrivateBet payload])
      | None =>
        (* setJoinSuccess("Successfully joined pool!"), then the reset *)
        (handleResetJoinFlow
           (mkState (joinCode st) (betPreview st) (joinAmount st)
                    (joinPrediction st) NoError Joined),
         [JoinPrivateBet payload; FetchData])
      end
    | Rejected =>
      (mkState (joinCode st) (betPreview st) (joinAmount st) (joinPrediction st)
               FailedToJoin NoSuccess,
       [JoinPrivateBet payload])
    end.

End Handler.

Definition form (code typed choice : string) : State :=
  mkState code (Some MarketDetail.market) typed choice NoError NoSuccess.

End JoinPool.

(** ** AuthContext and the request headers *)

Module Auth.

(** [localStorage]: the text stored under each key. *)
Definition Storage := string -> option string.

Definition getItem (s : Storage) (key : string) : option string := s key.

Definition setItem (s : Storage) (key value : string) : Storage :=
  fun k => if String.eqb k key then Some value else s k.

Definition removeItem (s : Storage) (key : string) : Storage :=
  fun k => if String.eqb k key then None else s k.

Record State := mkState {
  user : option User;
  isLoading : bool;
  localStorage : Storage
}.

(** The settled [api.login]: the body with its optional [error] and
    [access_token], read as the user when there is no error. *)
Inductive LoginReply :=
| LoginResolved (error : option string) (data : User) (access_token : option string)
| LoginRejected.

(** [getUser] is [None] when the body is empty, carries an error, or the
    request fails: [refreshUser] treats the three alike. *)
Record Api := mkApi {
  api_login : string -> string -> LoginReply;
  getUser : string -> option User
}.

(** A text as a condition: missing and empty are falsy. *)
Definition truthy_text (t : option string) : option string :=
  match t with
  | Some s => if String.eqb s "" then None else Some s
  | None => None
  end.

(** [login]: the new state and the [error] of the result. *)
Definition login (api : Api) (email password : string) (st : State)
  : State * option string :=
  match api_login api email password with
  | LoginResolved err data access_token =>
    match reply_error err with
    | Some e => (st, Some e)
    | None =>
      let s1 := setItem (localStorage st) "userEmail" email in
      let s2 := match truthy_text access_token with
                | Some t => setItem s1 "accessToken" t
                | None => s1
                end in
      (mkState (Some data) (isLoading st) s2, None)
    end
  | LoginRejected => (st, Some "Connection failed")
  end.

Definition logout (st : State) : State :=
  mkState None (isLoading st)
          (removeItem (removeItem (localStorage st) "userEmail") "accessToken").

(** [refreshUser(email)]; the argument is [None] when it is left out. *)
Definition refreshUser (api : Api) (email_arg : option string) (st : State) : State :=
  let targetEmail :=
    match truthy_text email_arg with
    | Some e => Some e
    | None => truthy_text (option_map email (user st))
    end in
  match targetEmail with
  | None => mkState (user st) false (localStorage st)
  | Some t =>
    match getUser api t with
    | Some userData => mkState (Some userData) false (localStorage st)
    | None => mkState None false (removeItem (localStorage st) "userEmail")
    end
  end.

(** The effect run when the provider mounts. *)
Definition mount (api : Api) (st : State) : State :=
  match truthy_text (getItem (localStorage st) "userEmail") with
  | Some storedEmail => refreshUser api (Some storedEmail) st
  | None => mkState (user st) false (localStorage st)
  end.

(** The state of the provider right after the page is loaded again: no
    user yet, loading, the storage as it was left. *)
Definition reloaded (st : State) : State :=
  mkState None true (localStorage st).

Record Headers := mkHeaders {
  content_type : option string;
  authorization : option string
}.

(** [getHeaders(includeJson)] of the api module. *)
Definition getHeaders (s : Storage) (includeJson : bool) : Headers :=
  mkHeaders (if includeJson then Some "application/json" else None)
            (match truthy_text (getItem s "accessToken") with
             | Some token => Some ("Bearer " ++ token)
             | None => None
             end).

Definition empty_storage : Storage := fun _ => None.

Definition signed_out : State := mkState None false empty_storage.

Definition server : Api :=
  mkApi (fun e _ =>
           if String.eqb e "ann@example.com"
           then LoginResolved None MarketDetail.ann (Some "tok1")
           else LoginResolved (Some "Invalid credentials") MarketDetail.ann None)
        (fun e => if String.eqb e "ann@example.com" then Some MarketDetail.ann else None).

End Auth.

(** ** CreateMarket *)

Module CreateMarket.

Inductive FormError :=
| NoError                       (* '' *)
| AtLeastTwoOutcomes            (* "A market must have at least 2 outcomes." *)
| MustBeLoggedIn                (* "You must be logged in to create a bet." *)
| PleaseAddTwoOutcomes          (* "Please add at least 2 outcomes." *)
| ServerError (e : string)      (* res.error *)
| FailedToCreate.               (* 'Failed to create bet. Please try again.' *)

(** The form; [createdBet], the body of the server's answer shown in the
    success dialog, is left out. *)
Record State := mkState {
  category : string;
  isPublic : bool;
  title : string;
  description : string;
  minBet : string;
  endDate : string;
  loading : bool;
  error : FormError;
  showSuccess : bool;
  outcomes : list string;
  newOutcome : string
}.

Definition initial : State :=
  mkState "Sports" false "" "" "" "" false NoError false ["Yes"; "No"] "".

Definition setOutcomes (st : State) (os : list string) (typed : string) (e : FormError)
  : State :=
  mkState (category st) (isPublic st) (title st) (description st) (minBet st)
          (endDate st) (loading st) e (showSuccess st) os typed.

(** [outcomes.includes(o)]. *)
Definition includes (os : list string) (o : string) : bool :=
  existsb (fun x => String.eqb x o) os.

Definition handleAddOutcome (st : State) : State :=
  let trimmed := PrivateDashboard.trim (newOutcome st) in
  if negb (String.eqb trimmed "") && negb (includes (outcomes st) trimmed) then
    setOutcomes st (outcomes st ++ [trimmed]) "" (error st)
  else st.

(** [os.filter((_, i) => i !== index)], counting from [i]. *)
Fixpoint remove_index (os : list string) (index i : nat) : list string :=
  match os with
  | [] => []
  | o :: r =>
    if (i =? index)%nat then remove_index r index (S i)
    else o :: remove_index r index (S i)
  end.

(** [handleRemoveOutcome(index)]; the error text it sets is cleared three
    seconds later. *)
Definition handleRemoveOutcome (index : nat) (st : State) : State :=
  if (2 <? List.length (outcomes st))%nat then
    setOutcomes st (remove_index (outcomes st) index 0) (newOutcome st) (error st)
  else
    setOutcomes st (outcomes st) (newOutcome st) AtLeastTwoOutcomes.

(** What the user can do to the form before submitting it. *)
Inductive Action :=
| SetCategory (c : string)
| SetIsPublic (b : bool)
| SetTitle (t : string)
| SetDescription (d : string)
| SetMinBet (m : string)
| SetEndDate (d : string)
| SetNewOutcome (o : string)
| AddOutcome
| RemoveOutcome (index : nat).

Definition act (st : State) (a : Action) : State :=
  match a with
  | SetCategory c =>
    mkState c (isPublic st) (title st) (description st) (minBet st) (endDate st)
            (loading st) (error st) (showSuccess st) (outcomes st) (newOutcome st)
  | SetIsPublic b =>
    mkState (category st) b (title st) (description st) (minBet st) (endDate st)
            (loading st) (error st) (showSuccess st) (outcomes st) (newOutcome st)
  | SetTitle t =>
    mkState (category st) (isPublic st) t (description st) (minBet st) (endDate st)
            (loading st) (error st) (showSuccess st) (outcomes st) (newOutcome st)
  | SetDescription d =>
    mkState (category st) (isPublic st) (title st) d (minBet st) (endDate st)
            (loading st) (error st) (showSuccess st) (outcomes st) (newOutcome st)
  | SetMinBet m =>
    mkState (category st) (isPublic st) (title st) (description st) m (endDate st)
            (loading st) (error st) (showSuccess st) (outcomes st) (newOutcome st)
  | SetEndDate d =>
    mkState (category st) (isPublic st) (title st) (description st) (minBet st) d
            (loading st) (error st) (showSuccess st) (outcomes st) (newOutcome st)
  | SetNewOutcome o =>
    mkState (category st) (isPublic st) (title st) (description st) (minBet st)
            (endDate st) (loading st) (error st) (showSuccess st) (outcomes st) o
  | AddOutcome => handleAddOutcome st
  | RemoveOutcome index => handleRemoveOutcome index st
  end.

(** The form after a sequence of actions, starting from the initial one. *)
Definition run (actions : list Action) : State := fold_left act actions initial.

Record Payload := mkPayload {
  payload_title : string;
  payload_description : string;
  base_price : Q;
  end_time : option Q;
  bet_type : string;
  creator_email : string;
  payload_outcomes : list string;
  payload_category : string
}.

Section Submit.

(** [parseFloat], the seconds of [new Date(text).getTime() / 1000] and
    those of [Date.now() / 1000]; [None] is [NaN]. *)
Variable parseFloat : string -> option Q.
Variable dateSeconds : string -> option Q.
Variable nowSeconds : Q.

(** [parseFloat(minBet) || 10]. *)
Definition basePrice (minBet : string) : Q :=
  match parseFloat minBet with
  | Some m => js_or m 10
  | None => 10
  end.

Definition payloadOf (u : User) (st : State) : Payload :=
  mkPayload (title st) (description st) (basePrice (minBet st))
            (if String.eqb (endDate st) "" then Some (nowSeconds + 86400)
             else dateSeconds (endDate st))
            (if isPublic st then "PUBLIC" else "PRIVATE")
            (email u) (outcomes st) (category st).

(** [handleSubmit]: the final form and the payload sent, if any. *)
Definition handleSubmit (createBet : Payload -> Reply) (user : option User)
           (st : State) : State * option Payload :=
  match user with
  | None => (setOutcomes st (outcomes st) (newOutcome st) MustBeLoggedIn, None)
  | Some u =>
    if (List.length (outcomes st) <? 2)%nat then
      (setOutcomes st (outcomes st) (newOutcome st) PleaseAddTwoOutcomes, None)
    else
      let payload := payloadOf u st in
      let done (e : FormError) (shown : bool) :=
        mkState (category st) (isPublic st) (title st) (description st)
                (minBet st) (endDate st) false e shown (outcomes st)
                (newOutcome st) in
      match createBet payload with
      | Resolved err =>
        match reply_error err with
        | Some e => (done (ServerError e) (showSuccess st), Some payload)
        | None => (done NoError true, Some payload)
        end
      | Rejected => (done FailedToCreate (showSuccess st), Some payload)
      end
  end.

End Submit.

(** The rule of the data model: at least two labels, all different, none
    empty. *)
Definition well_formed_outcomes (os : list string) : Prop :=
  (2 <= List.length os)%nat /\ NoDup os /\ Forall (fun o => o <> "") os.

Definition parse_sample (s : string) : option Q :=
  if String.eqb s "25" then Some 25
  else if String.eqb s "0" then Some 0
  else None.

End CreateMarket.

(** ** MarketDetail: who sees the comments and the comment box *)

Module CommentBox.
Import MarketDetail.

(** The condition around the comments section; [bet_type] is the field of
    that name of the market. *)
Definition commentsShown (bet_type : string) (st : State) : bool :=
  negb (String.eqb bet_type "PRIVATE") || hasBet st.

(** [user && user.email === bet.creator]. *)
Definition isCreator (st : State) : bool :=
  match user st with
  | Some u => String.eqb (email u) (Bet.creator (bet st))
  | None => false
  end.

(** The condition, inside the section, that shows the comment box rather
    than 'Only participants can post comments.'. *)
Definition inputShown (st : State) : bool := hasBet st || isCreator st.

(** The comment box is on the page. *)
Definition commentBoxShown (bet_type : string) (st : State) : bool :=
  commentsShown bet_type st && inputShown st.

Definition host : User := mkUser "Host" "host@example.com" 500 1000 1 0.

End CommentBox.

(** * Properties *)

(** ** Facts about the number operations *)

Lemma js_lt_true x y : js_lt x y = true <-> x < y.
Proof.
  unfold js_lt. rewrite negb_true_iff, <- not_true_iff_false, Qle_bool_iff.
  split; [apply Qnot_le_lt | apply Qlt_not_le].
Qed.

Lemma js_lt_false x y : js_lt x y = false <-> y <= x.
Proof.
  unfold js_lt. rewrite negb_false_iff. apply Qle_bool_iff.
Qed.

Lemma js_le_true x y : js_le x y = true <-> x <= y.
Proof. apply Qle_bool_iff. Qed.

Lemma js_le_false x y : js_le x y = false <-> y < x.
Proof.
  unfold js_le. rewrite <- not_true_iff_false, Qle_bool_iff.
  split; [apply Qnot_le_lt | apply Qlt_not_le].
Qed.

Lemma js_or_zero x : js_or x 0 == x.
Proof.
  unfold js_or, js_truthy. destruct (Qeq_bool x 0) eqn:E; simpl.
  - symmetry. now apply Qeq_bool_eq.
  - reflexivity.
Qed.

Lemma js_truthy_pos x : 0 < x -> js_truthy x = true.
Proof.
  intros H. unfold js_truthy. rewrite negb_true_iff.
  destruct (Qeq_bool x 0) eqn:E; [|reflexivity].
  apply Qeq_bool_eq in E. rewrite E in H. now apply Qlt_irrefl in H.
Qed.

Lemma Math_min_Qmin x y : Math_min x y == Qmin x y.
Proof.
  unfold Math_min. destruct (js_lt y x) eqn:E.
  - apply js_lt_true in E. symmetry. apply Q.min_r. now apply Qlt_le_weak.
  - apply js_lt_false in E. symmetry. now apply Q.min_l.
Qed.

Lemma js_gt_true x y : js_gt x y = true <-> y < x.
Proof. apply js_lt_true. Qed.

Lemma js_gt_false x y : js_gt x y = false <-> x <= y.
Proof. apply js_lt_false. Qed.

(** ** Rounding to a double *)

(** On the samples, [round64] after the exact operation is the operation
    of the standard library on doubles. *)
Example round64_agrees_with_SpecFloat : Binary64.checks = true.
Proof. vm_compute. reflexivity. Qed.

(** Powers of two. *)
Lemma pow2_pos z : 0 < 2 ^ z.
Proof. apply Qpower_0_lt. reflexivity. Qed.

Lemma pow2_le a b : (a <= b)%Z -> 2 ^ a <= 2 ^ b.
Proof. intros H. apply Qpower_le_compat_l; [exact H | discriminate]. Qed.

Lemma pow2_succ a : 2 ^ (a + 1) == 2 * 2 ^ a.
Proof. rewrite Qpower_plus by discriminate. change (2 ^ 1) with 2. ring. Qed.

Lemma pow2_Z a : (0 <= a)%Z -> inject_Z (2 ^ a) == 2 ^ a.
Proof. intros H. now rewrite Zpower_Qpower. Qed.

Lemma log2_bounds_Q n :
  (0 < n)%Z -> 2 ^ Z.log2 n <= inject_Z n /\ inject_Z n < 2 * 2 ^ Z.log2 n.
Proof.
  intros Hn. destruct (Z.log2_spec n Hn) as [Hl Hu].
  pose proof (Z.log2_nonneg n) as H0.
  rewrite <- pow2_succ, <- !pow2_Z by lia. rewrite <- Zle_Qle, <- Zlt_Qlt.
  split; [exact Hl|]. now rewrite <- Z.add_1_r in Hu.
Qed.

(** A quotient of two numbers of known binades lies within a factor two
    of the quotient of the powers. *)
Lemma quotient_bounds (A N B D : Q) :
  0 < A -> 0 < B -> A <= N -> N < 2 * A -> B <= D -> D < 2 * B ->
  (1 # 2) * (A / B) < N / D /\ N / D < 2 * (A / B).
Proof.
  intros HA0 HB0 HA1 HA2 HB1 HB2.
  set (t := A / B).
  assert (Ht : t * B == A) by (unfold t; field; lra).
  assert (Ht0 : 0 < t) by (unfold t; apply Qlt_shift_div_l; lra).
  assert (HD0 : 0 < D) by lra.
  assert (HtD : t * B <= t * D) by (apply Qmult_le_l; assumption).
  assert (HtD2 : t * D < t * (2 * B)) by (apply Qmult_lt_l; assumption).
  clearbody t. split.
  - apply Qlt_shift_div_l; [exact HD0|]. lra.
  - apply Qlt_shift_div_r; [exact HD0|]. lra.
Qed.

(** [binade] brackets a positive number between two powers of two. *)
Lemma binade_spec x :
  0 < x -> 2 ^ binade x <= x /\ x < 2 ^ (binade x + 1).
Proof.
  intros Hx. unfold binade.
  assert (Hn : (0 < Qnum x)%Z).
  { unfold Qlt in Hx. simpl in Hx. lia. }
  destruct (log2_bounds_Q (Qnum x) Hn) as [HA1 HA2].
  destruct (log2_bounds_Q (Zpos (Qden x)) eq_refl) as [HB1 HB2].
  assert (Hxe : x == inject_Z (Qnum x) / inject_Z (Zpos (Qden x))).
  { destruct x as [n d]. apply Qmake_Qdiv. }
  set (a := Z.log2 (Qnum x)) in *. set (b := Z.log2 (Zpos (Qden x))) in *.
  assert (Hk : 2 ^ (a - b) == 2 ^ a / 2 ^ b) by (apply Qpower_minus; discriminate).
  destruct (quotient_bounds (2 ^ a) (inject_Z (Qnum x)) (2 ^ b)
              (inject_Z (Zpos (Qden x))) (pow2_pos a) (pow2_pos b)
              HA1 HA2 HB1 HB2) as [Hlow Hup].
  rewrite <- Hxe, <- Hk in Hlow, Hup. clear HA1 HA2 HB1 HB2 Hxe Hk Hn.
  assert (Hh : 2 ^ (a - b) == 2 * 2 ^ (a - b - 1)).
  { rewrite <- pow2_succ. replace (a - b - 1 + 1)%Z with (a - b)%Z by lia.
    reflexivity. }
  destruct (Qle_bool (2 ^ (a - b)) x) eqn:E.
  - apply Qle_bool_iff in E. split; [exact E|]. now rewrite pow2_succ.
  - assert (E' : x < 2 ^ (a - b)).
    { apply Qnot_le_lt. intros H. apply Qle_bool_iff in H. congruence. }
    replace (a - b - 1 + 1)%Z with (a - b)%Z by lia. split; [|exact E'].
    set (k := 2 ^ (a - b)) in *. set (h := 2 ^ (a - b - 1)) in *.
    clearbody k h. clear E a b. lra.
Qed.

Lemma binade_mono x y : 0 < x -> x <= y -> (binade x <= binade y)%Z.
Proof.
  intros Hx Hxy.
  assert (Hy : 0 < y) by lra.
  destruct (binade_spec x Hx) as [Hx1 _].
  destruct (binade_spec y Hy) as [_ Hy2].
  destruct (Z_le_gt_dec (binade x) (binade y)) as [H | H]; [exact H|].
  exfalso. assert (Hp : 2 ^ (binade y + 1) <= 2 ^ binade x) by (apply pow2_le; lia).
  set (p := 2 ^ (binade y + 1)) in *. set (q := 2 ^ binade x) in *.
  clearbody p q. lra.
Qed.

Lemma level_mono x y : 0 < x -> x <= y -> (level x <= level y)%Z.
Proof.
  intros Hx Hxy. unfold level. pose proof (binade_mono x y Hx Hxy). lia.
Qed.

Lemma rne_bounds y : (Qfloor y <= rne y <= Qfloor y + 1)%Z.
Proof.
  unfold rne. destruct (Qcompare (y - inject_Z (Qfloor y)) (1 # 2));
    [destruct (Z.even (Qfloor y))| |]; lia.
Qed.

Lemma rne_mono y1 y2 : y1 <= y2 -> (rne y1 <= rne y2)%Z.
Proof.
  intros H. pose proof (Qfloor_resp_le y1 y2 H) as Hf.
  pose proof (rne_bounds y1) as B1. pose proof (rne_bounds y2) as B2.
  destruct (Z_lt_le_dec (Qfloor y1) (Qfloor y2)) as [Hlt | Hge]; [lia|].
  assert (E : Qfloor y1 = Qfloor y2) by lia.
  unfold rne. rewrite E.
  destruct (Qcompare_spec (y1 - inject_Z (Qfloor y2)) (1 # 2)) as [H1 | H1 | H1];
    destruct (Qcompare_spec (y2 - inject_Z (Qfloor y2)) (1 # 2)) as [H2 | H2 | H2];
    try destruct (Z.even (Qfloor y2)); try lia; exfalso; lra.
Qed.

Lemma rne_Z n : rne (inject_Z n) = n.
Proof.
  unfold rne. rewrite Qfloor_Z.
  destruct (Qcompare_spec (inject_Z n - inject_Z n) (1 # 2)) as [H | H | H];
    [exfalso; lra | reflexivity | exfalso; lra].
Qed.

Lemma rne_le_Z y n : y <= inject_Z n -> (rne y <= n)%Z.
Proof. intros H. rewrite <- (rne_Z n). now apply rne_mono. Qed.

Lemma rne_ge_Z y n : inject_Z n <= y -> (n <= rne y)%Z.
Proof. intros H. rewrite <- (rne_Z n). now apply rne_mono. Qed.

Lemma quantum_pos x : 0 < quantum x.
Proof. apply pow2_pos. Qed.

Lemma pow2_split l k : 2 ^ (l + k) == 2 ^ k * 2 ^ l.
Proof. rewrite Qpower_plus by discriminate. ring. Qed.

(** A rounded number stays within the powers of two around it, so that
    rounding keeps the order. *)
Lemma round_pos_upper x : 0 < x -> round_pos x <= 2 ^ (level x + 1).
Proof.
  intros Hx. destruct (binade_spec x Hx) as [_ Hu].
  assert (Hl : 2 ^ (binade x + 1) <= 2 ^ (level x + 1)) by (apply pow2_le; unfold level; lia).
  assert (Hs : 2 ^ (level x + 1) == inject_Z (2 ^ 53) * quantum x).
  { unfold quantum. rewrite pow2_Z by lia. rewrite <- pow2_split.
    replace (level x - 52 + 53)%Z with (level x + 1)%Z by lia. reflexivity. }
  unfold round_pos. pose proof (quantum_pos x) as Hq.
  assert (Hr : (rne (x / quantum x) <= 2 ^ 53)%Z).
  { apply rne_le_Z. apply Qle_shift_div_r; [exact Hq|]. rewrite <- Hs.
    set (p := 2 ^ (binade x + 1)) in *. set (p' := 2 ^ (level x + 1)) in *.
    clearbody p p'. lra. }
  rewrite Hs. apply Qmult_le_compat_r; [|lra]. now rewrite <- Zle_Qle.
Qed.

Lemma round_pos_lower x :
  0 < x -> (-1022 <= binade x)%Z -> 2 ^ binade x <= round_pos x.
Proof.
  intros Hx Hb. destruct (binade_spec x Hx) as [Hl _].
  assert (El : level x = binade x) by (unfold level; lia).
  assert (Hs : 2 ^ binade x == inject_Z (2 ^ 52) * quantum x).
  { unfold quantum. rewrite El, pow2_Z by lia. rewrite <- pow2_split.
    replace (binade x - 52 + 52)%Z with (binade x) by lia. reflexivity. }
  unfold round_pos. pose proof (quantum_pos x) as Hq.
  assert (Hr : (2 ^ 52 <= rne (x / quantum x))%Z).
  { apply rne_ge_Z. apply Qle_shift_div_l; [exact Hq|]. now rewrite <- Hs. }
  rewrite Hs. apply Qmult_le_compat_r; [|lra]. now rewrite <- Zle_Qle.
Qed.

Lemma round_pos_nonneg x : 0 < x -> 0 <= round_pos x.
Proof.
  intros Hx. unfold round_pos. pose proof (quantum_pos x) as Hq.
  apply Qmult_le_0_compat; [|lra].
  change 0 with (inject_Z 0). rewrite <- Zle_Qle. apply rne_ge_Z.
  apply Qle_shift_div_l; [exact Hq|]. change (inject_Z 0) with 0. lra.
Qed.

Lemma round_pos_mono x y : 0 < x -> x <= y -> round_pos x <= round_pos y.
Proof.
  intros Hx Hxy. assert (Hy : 0 < y) by lra.
  pose proof (level_mono x y Hx Hxy) as Hl.
  destruct (Z.eq_dec (level x) (level y)) as [E | N].
  - unfold round_pos, quantum. rewrite E.
    pose proof (pow2_pos (level y - 52)) as Hq. set (q := 2 ^ (level y - 52)) in *.
    apply Qmult_le_compat_r; [|lra]. rewrite <- Zle_Qle. apply rne_mono.
    unfold Qdiv. apply Qmult_le_compat_r; [exact Hxy|].
    apply Qlt_le_weak, Qinv_lt_0_compat, Hq.
  - assert (Hby : (-1022 <= binade y)%Z) by (unfold level in *; lia).
    assert (Ey : level y = binade y) by (unfold level in *; lia).
    pose proof (round_pos_upper x Hx) as Hu.
    pose proof (round_pos_lower y Hy Hby) as Hlo.
    assert (Hp : 2 ^ (level x + 1) <= 2 ^ binade y) by (apply pow2_le; lia).
    set (p := 2 ^ (level x + 1)) in *. set (p' := 2 ^ binade y) in *.
    clearbody p p'. lra.
Qed.

(** [round64] reads its argument as a number, not as a fraction. *)
Lemma round64_compat x y : x == y -> round64 x = round64 y.
Proof. intros H. unfold round64. now rewrite (Qred_complete x y H). Qed.

(** Rounding is monotone. *)
Lemma round64_mono x y : x <= y -> round64 x <= round64 y.
Proof.
  intros H. unfold round64.
  pose proof (Qred_correct x) as Ex. pose proof (Qred_correct y) as Ey.
  set (rx := Qred x) in *. set (ry := Qred y) in *. clearbody rx ry.
  destruct (Qcompare_spec 0 rx) as [Hx | Hx | Hx];
    destruct (Qcompare_spec 0 ry) as [Hy | Hy | Hy]; try (exfalso; lra).
  - apply Qle_refl.
  - now apply round_pos_nonneg.
  - apply round_pos_mono; lra.
  - assert (0 <= round_pos (- rx)) by (apply round_pos_nonneg; lra). lra.
  - assert (0 <= round_pos (- rx)) by (apply round_pos_nonneg; lra).
    assert (0 <= round_pos ry) by (apply round_pos_nonneg; lra). lra.
  - assert (round_pos (- ry) <= round_pos (- rx)) by (apply round_pos_mono; lra). lra.
Qed.

Lemma round64_0 : round64 0 = 0.
Proof. reflexivity. Qed.
Lemma round64_1 : round64 1 == 1.
Proof. vm_compute. reflexivity. Qed.
Lemma round64_100 : round64 100 == 100.
Proof. vm_compute. reflexivity. Qed.

Lemma round64_nonneg x : 0 <= x -> 0 <= round64 x.
Proof. intros H. pose proof (round64_mono 0 x H) as M. now rewrite round64_0 in M. Qed.


Lemma round64_le_double x d : is_double d -> x <= d -> round64 x <= d.
Proof.
  intros E H. apply Qle_trans with (round64 d); [now apply round64_mono|].
  apply Qle_lteq. right. exact E.
Qed.



Lemma rne_compat y1 y2 : y1 == y2 -> rne y1 = rne y2.
Proof.
  intros E. unfold rne. rewrite (Qfloor_comp _ _ E).
  assert (C : (y1 - inject_Z (Qfloor y2) ?= 1 # 2) = (y2 - inject_Z (Qfloor y2) ?= 1 # 2))
    by (now rewrite E).
  now rewrite C.
Qed.


(** A whole number below [2 ^ 53] is a double. *)
Lemma round_pos_whole n : (0 < n < 2 ^ 53)%Z -> round_pos (inject_Z n) == inject_Z n.
Proof.
  intros [Hn0 Hn1]. set (x := inject_Z n).
  assert (Hx : 0 < x) by (unfold x; change 0 with (inject_Z 0); now rewrite <- Zlt_Qlt).
  destruct (binade_spec x Hx) as [Bl Bu].
  assert (Hb0 : (0 <= binade x)%Z).
  { destruct (Z_lt_le_dec (binade x) 0) as [H|H]; [|exact H]. exfalso.
    assert (Hp : 2 ^ (binade x + 1) <= 2 ^ 0) by (apply pow2_le; lia).
    assert (H1 : 1 <= x) by (unfold x; change 1 with (inject_Z 1); rewrite <- Zle_Qle; lia).
    change (2 ^ 0) with 1 in Hp.
    set (p := 2 ^ (binade x + 1)) in *. clearbody p. lra. }
  assert (Hb1 : (binade x <= 52)%Z).
  { destruct (Z_lt_le_dec 52 (binade x)) as [H|H]; [|exact H]. exfalso.
    assert (Hp : 2 ^ 53 <= 2 ^ binade x) by (apply pow2_le; lia).
    assert (H1 : x < 2 ^ 53).
    { unfold x. rewrite <- pow2_Z by lia. now rewrite <- Zlt_Qlt. }
    set (p := 2 ^ binade x) in *. set (q := 2 ^ 53) in *. clearbody p q. lra. }
  unfold round_pos, quantum, level. rewrite Z.max_l by lia.
  set (b := binade x) in *. clearbody b.
  assert (Hq : 2 ^ (b - 52) * inject_Z (2 ^ (52 - b)) == 1).
  { rewrite pow2_Z by lia. rewrite <- Qpower_plus by discriminate.
    replace (b - 52 + (52 - b))%Z with 0%Z by lia. reflexivity. }
  pose proof (pow2_pos (b - 52)) as Hq0.
  set (q := 2 ^ (b - 52)) in *. set (s := inject_Z (2 ^ (52 - b))) in *.
  assert (Hs : / q == s).
  { apply (Qmult_inj_l _ _ q); [lra|]. rewrite Qmult_inv_r by lra.
    symmetry. exact Hq. }
  assert (Hy : x / q == inject_Z (n * 2 ^ (52 - b))).
  { rewrite inject_Z_mult. fold x s. unfold Qdiv. now rewrite Hs. }
  rewrite (rne_compat _ _ Hy), rne_Z, inject_Z_mult. fold x s.
  clearbody q s. rewrite <- (Qmult_1_r x) at 2. rewrite <- Hq. ring.
Qed.

Lemma whole_is_double n : (Z.abs n < 2 ^ 53)%Z -> is_double (inject_Z n).
Proof.
  intros Hn. unfold is_double, round64.
  assert (Er : Qred (inject_Z n) = inject_Z n).
  { apply Qcanon.Qred_identity. simpl. apply Z.gcd_1_r. }
  rewrite Er.
  destruct (Qcompare_spec 0 (inject_Z n)) as [H | H | H].
  - exact H.
  - apply round_pos_whole. change 0 with (inject_Z 0) in H.
    rewrite <- Zlt_Qlt in H. lia.
  - change (- inject_Z n) with (inject_Z (- n)).
    change 0 with (inject_Z 0) in H. rewrite <- Zlt_Qlt in H.
    rewrite round_pos_whole by lia. rewrite inject_Z_opp. ring.
Qed.


Lemma Math_round_range x : 0 <= x -> x <= 100 -> (0 <= Math_round x <= 100)%Z.
Proof.
  intros H0 H1. unfold Math_round. split.
  - apply Z.le_trans with (Qfloor 0); [reflexivity|].
    apply Qfloor_resp_le. lra.
  - apply Z.le_trans with (Qfloor (100 + (1 # 2))); [|discriminate].
    apply Qfloor_resp_le. lra.
Qed.

(** The percentage of a share between 0 and 1, computed as the pages do. *)
Lemma percent_of_share_range x :
  0 <= x -> x <= 1 -> (0 <= Math_round (js_mul (round64 x) 100) <= 100)%Z.
Proof.
  intros H0 H1. unfold js_mul.
  pose proof (round64_nonneg x H0) as R0.
  pose proof (round64_le_double x 1 round64_1 H1) as R1.
  apply Math_round_range.
  - apply round64_nonneg. lra.
  - apply round64_le_double; [exact round64_100 | lra].
Qed.


(** *** The size of the rounding error *)







(** ** LoanPage: borrowing limit, borrow and repay guards, MAX *)

Module LoanPageFacts.
Import LoanPage.

Lemma userTrust_user st u : user st = Some u -> userTrust st == trust u.
Proof. intros H. unfold userTrust. rewrite H. apply js_or_zero. Qed.

Lemma userMoney_user st u : user st = Some u -> userMoney st == money u.
Proof. intros H. unfold userMoney. rewrite H. apply js_or_zero. Qed.

Lemma userLoan_user st u : user st = Some u -> userLoan st == loan u.
Proof. intros H. unfold userLoan. rewrite H. apply js_or_zero. Qed.

(** The chain of comparisons picks the multiplier of the tier table. *)
Lemma loanLimitMultiplier_tier st u m :
  user st = Some u -> tierMultiplier (trust u) m -> loanLimitMultiplier st == m.
Proof.
  intros Hu Ht. pose proof (userTrust_user st u Hu) as Et.
  unfold loanLimitMultiplier.
  repeat match goal with
  | |- context [js_lt ?a ?b] =>
    let E := fresh "E" in
    destruct (js_lt a b) eqn:E;
    [apply js_lt_true in E | apply js_lt_false in E]
  end;
  unfold tierMultiplier in Ht;
  repeat match goal with
  | H : _ \/ _ |- _ => destruct H as [H | H]
  | H : _ /\ _ |- _ => destruct H
  end;
  try (symmetry; assumption); exfalso; lra.
Qed.

(** C1. The borrowing limit of a user with trust score [t] is
    [min(5000, 2500 * m)] where [m] is the multiplier the tier table
    gives for [t]. *)
Theorem loanLimit_is_capped_tier_limit st u m :
  user st = Some u ->
  tierMultiplier (trust u) m ->
  loanLimit st == Qmin 5000 (2500 * m).
Proof.
  intros Hu Ht. unfold loanLimit, calculatedLimit, baseLimit.
  rewrite Math_min_Qmin, Q.min_comm.
  now rewrite (loanLimitMultiplier_tier st u m Hu Ht).
Qed.

Lemma loanLimit_is_capped_tier_limit_witness :
  loanLimit (page alice Blank Blank) == Qmin 5000 (2500 * 1).
Proof.
  apply (loanLimit_is_capped_tier_limit (page alice Blank Blank) alice 1).
  - reflexivity.
  - unfold tierMultiplier. simpl. right. right. right. left.
    repeat split; try reflexivity; lra.
Defined.

(** Every trust score has a tier. *)
Lemma tierMultiplier_total t : exists m, tierMultiplier t m.
Proof.
  unfold tierMultiplier.
  destruct (Qlt_le_dec t 50); [exists 0; left; split; [assumption|reflexivity]|].
  destruct (Qlt_le_dec t 300); [exists (2#10); right; left; repeat split; (assumption || reflexivity)|].
  destruct (Qlt_le_dec t 500); [exists (5#10); do 2 right; left; repeat split; (assumption || reflexivity)|].
  destruct (Qlt_le_dec t 700); [exists 1; do 3 right; left; repeat split; (assumption || reflexivity)|].
  destruct (Qlt_le_dec t 850); [exists (15#10); do 4 right; left; repeat split; (assumption || reflexivity)|].
  exists 2. do 5 right. split; (assumption || reflexivity).
Qed.

Example loanLimit_alice : loanLimit (page alice Blank Blank) == 2500.
Proof. reflexivity. Qed.

Example loanLimit_trust_900 :
  loanLimit (page (mkUser "Bob" "bob@example.com" 0 900 0 0) Blank Blank) == 5000.
Proof. reflexivity. Qed.

Example loanLimit_trust_49 :
  loanLimit (page (mkUser "Bob" "bob@example.com" 0 49 0 0) Blank Blank) == 0.
Proof. reflexivity. Qed.

(** The guard of [handleBorrow]: past a positive amount, a rounded sum over
    the limit ends the handler with the message and nothing else. *)
Lemma handleBorrow_refuses api st u a :
  user st = Some u ->
  borrowAmount st = Val a ->
  0 < a ->
  loanLimit st < js_add (userLoan st) a ->
  handleBorrow api st
    = (setMessage st (Some (mkMessage error LoanLimitExceeded)), []).
Proof.
  intros Hu Ha Hpos Hover.
  unfold handleBorrow. rewrite Hu, Ha. simpl.
  rewrite (js_truthy_pos a Hpos). simpl.
  replace (js_le a 0) with false
    by (symmetry; apply js_le_false; assumption).
  replace (js_gt (js_add (userLoan st) a) (loanLimit st)) with true
    by (symmetry; apply js_gt_true; assumption).
  reflexivity.
Qed.

(** C4 as the page decides it.  A positive request is refused with 'Loan
    limit exceeded' when the loan balance plus the requested amount, added
    in double precision as the page adds them, exceeds the limit: no
    request is sent, and the session user (balance and loan) is as
    before. *)
Theorem handleBorrow_over_limit api st u a :
  user st = Some u ->
  borrowAmount st = Val a ->
  0 < a ->
  loanLimit st < js_add (userLoan st) a ->
  handleBorrow api st
    = (setMessage st (Some (mkMessage error LoanLimitExceeded)), [])
  /\ user (fst (handleBorrow api st)) = Some u.
Proof.
  intros Hu Ha Hpos Hover.
  pose proof (handleBorrow_refuses api st u a Hu Ha Hpos Hover) as E.
  split; [exact E|]. rewrite E. exact Hu.
Qed.

Lemma handleBorrow_over_limit_witness :
  handleBorrow accepting (page alice Blank (Val 501))
    = (setMessage (page alice Blank (Val 501))
                  (Some (mkMessage error LoanLimitExceeded)), [])
  /\ user (fst (handleBorrow accepting (page alice Blank (Val 501)))) = Some alice.
Proof.
  apply (handleBorrow_over_limit accepting (page alice Blank (Val 501)) alice 501).
  - reflexivity.
  - reflexivity.
  - reflexivity.
  - vm_compute. reflexivity.
Defined.

(** Within the limit the request does go out. *)
Example handleBorrow_within_limit :
  snd (handleBorrow accepting (page alice Blank (Val 500)))
    = [ApplyLoan "alice@example.com" 500; GetUser "alice@example.com"].
Proof. vm_compute. reflexivity. Qed.

(** The amount typed as [1e-13] is the double [3961408125713217 / 2 ^ 95],
    and added to 2500 it leaves 2500. *)
Example typed_1e_13_value :
  typed_1e_13 == 3961408125713217 / 2 ^ 95 /\ js_add 2500 typed_1e_13 == 2500.
Proof. split; vm_compute; reflexivity. Qed.

(** C4 as worded fails where the excess is lost in the addition.  Carol's
    loan of 2500 is her limit; for the positive amount [1e-13] the balance
    plus the amount exceeds the limit, yet the page computes the sum 2500,
    shows no 'Loan limit exceeded' and sends the request. *)
Lemma rounded_sum_passes_the_limit :
  0 < typed_1e_13
  /\ loanLimit (page carol Blank (Val typed_1e_13))
     < userLoan (page carol Blank (Val typed_1e_13)) + typed_1e_13
  /\ handleBorrow accepting (page carol Blank (Val typed_1e_13))
     <> (setMessage (page carol Blank (Val typed_1e_13))
                    (Some (mkMessage error LoanLimitExceeded)), [])
  /\ snd (handleBorrow accepting (page carol Blank (Val typed_1e_13)))
     = [ApplyLoan "carol@example.com" typed_1e_13; GetUser "carol@example.com"].
Proof.
  split; [vm_compute; reflexivity|]. split; [vm_compute; reflexivity|].
  assert (E : snd (handleBorrow accepting (page carol Blank (Val typed_1e_13)))
              = [ApplyLoan "carol@example.com" typed_1e_13;
                 GetUser "carol@example.com"])
    by (vm_compute; reflexivity).
  split; [|exact E]. intros H. rewrite H in E. discriminate E.
Qed.

(** Every trust score gives one of six limits. *)
Lemma loanLimit_values st :
  loanLimit st == 0 \/ loanLimit st == 500 \/ loanLimit st == 1250
  \/ loanLimit st == 2500 \/ loanLimit st == 3750 \/ loanLimit st == 5000.
Proof.
  unfold loanLimit, calculatedLimit, loanLimitMultiplier, baseLimit.
  destruct (js_lt (userTrust st) 50); [left; reflexivity|].
  destruct (js_lt (userTrust st) 300); [right; left; reflexivity|].
  destruct (js_lt (userTrust st) 500); [do 2 right; left; reflexivity|].
  destruct (js_lt (userTrust st) 700); [do 3 right; left; reflexivity|].
  destruct (js_lt (userTrust st) 850); [do 4 right; left; reflexivity|].
  do 5 right. reflexivity.
Qed.

(** The products [2500 * m] of the tier table come out the same when the
    multiplier and the product are rounded to doubles. *)
Lemma calculatedLimit_in_doubles st :
  js_mul baseLimit (round64 (loanLimitMultiplier st)) == calculatedLimit st.
Proof.
  unfold calculatedLimit, loanLimitMultiplier, baseLimit.
  destruct (js_lt (userTrust st) 50); [vm_compute; reflexivity|].
  destruct (js_lt (userTrust st) 300); [vm_compute; reflexivity|].
  destruct (js_lt (userTrust st) 500); [vm_compute; reflexivity|].
  destruct (js_lt (userTrust st) 700); [vm_compute; reflexivity|].
  destruct (js_lt (userTrust st) 850); vm_compute; reflexivity.
Qed.

(** X21. What the rounding of the sum can hide is less than a cent: a
    positive request that takes the loan balance a cent or more over the
    limit is refused with 'Loan limit exceeded', and nothing is sent. *)
Theorem handleBorrow_over_limit_by_a_cent api st u a :
  user st = Some u ->
  borrowAmount st = Val a ->
  0 < a ->
  loanLimit st + (1 # 100) <= userLoan st + a ->
  handleBorrow api st
    = (setMessage st (Some (mkMessage error LoanLimitExceeded)), []).
Proof.
  intros Hu Ha Hpos Hover.
  apply (handleBorrow_refuses api st u a Hu Ha Hpos).
  unfold js_add.
  pose proof (round64_mono _ _ Hover) as M.
  assert (Hc : loanLimit st < round64 (loanLimit st + (1 # 100))).
  { destruct (loanLimit_values st) as [E | [E | [E | [E | [E | E]]]]];
      assert (E' : loanLimit st + (1 # 100) == _ + (1 # 100))
        by (rewrite E; reflexivity);
      rewrite (round64_compat _ _ E'), E; vm_compute; reflexivity. }
  lra.
Qed.

Lemma handleBorrow_over_limit_by_a_cent_witness :
  handleBorrow accepting (page alice Blank (Val (50001 # 100)))
    = (setMessage (page alice Blank (Val (50001 # 100)))
                  (Some (mkMessage error LoanLimitExceeded)), []).
Proof.
  apply (handleBorrow_over_limit_by_a_cent
           accepting (page alice Blank (Val (50001 # 100))) alice (50001 # 100)).
  - reflexivity.
  - reflexivity.
  - reflexivity.
  - vm_compute. discriminate.
Defined.

(** C5. A repayment larger than the available balance is refused with
    'Insufficient funds': no request is sent, and the session user (balance
    and loan) is as before.  The balance of an account is never negative. *)
Theorem handleRepay_over_balance api st u :
  user st = Some u ->
  0 <= money u ->
  money u < Number (repayAmount st) ->
  handleRepay api st
    = (setMessage st (Some (mkMessage error InsufficientFunds)), [])
  /\ user (fst (handleRepay api st)) = Some u.
Proof.
  intros Hu Hbal Hover.
  pose proof (userMoney_user st u Hu) as Em.
  assert (Hpos : 0 < Number (repayAmount st)) by lra.
  assert (E : handleRepay api st
              = (setMessage st (Some (mkMessage error InsufficientFunds)), [])).
  { unfold handleRepay. rewrite Hu.
    replace (field_falsy (repayAmount st)) with false.
    2:{ destruct (repayAmount st) as [|q]; simpl in *.
        - now apply Qlt_irrefl in Hpos.
        - now rewrite (js_truthy_pos q Hpos). }
    replace (js_le (Number (repayAmount st)) 0) with false
      by (symmetry; apply js_le_false; assumption).
    replace (js_gt (Number (repayAmount st)) (userMoney st)) with true
      by (symmetry; apply js_gt_true; lra).
    reflexivity. }
  split; [exact E|]. rewrite E. exact Hu.
Qed.

Lemma handleRepay_over_balance_witness :
  handleRepay accepting (page alice (Val 101) Blank)
    = (setMessage (page alice (Val 101) Blank)
                  (Some (mkMessage error InsufficientFunds)), [])
  /\ user (fst (handleRepay accepting (page alice (Val 101) Blank))) = Some alice.
Proof.
  apply (handleRepay_over_balance accepting (page alice (Val 101) Blank) alice).
  - reflexivity.
  - discriminate.
  - reflexivity.
Defined.

Example handleRepay_within_balance :
  snd (handleRepay accepting (page alice (Val 100) Blank))
    = [RepayLoan "alice@example.com" 100; GetUser "alice@example.com"].
Proof. reflexivity. Qed.

(** C8. MAX prefills [min(balance, loan)]: never more than the balance and
    never more than the loan. *)
Theorem clickMax_prefills_min st u :
  user st = Some u ->
  exists r, repayAmount (clickMax st) = Val r
            /\ r == Qmin (money u) (loan u)
            /\ r <= money u /\ r <= loan u.
Proof.
  intros Hu.
  pose proof (userMoney_user st u Hu) as Em.
  pose proof (userLoan_user st u Hu) as El.
  eexists. split; [reflexivity|].
  destruct (js_gt (userMoney st) (userLoan st)) eqn:E.
  - apply js_gt_true in E. rewrite El.
    assert (loan u <= money u) by lra.
    rewrite (Q.min_r _ _ H). repeat split; lra.
  - apply js_gt_false in E. rewrite Em.
    assert (money u <= loan u) by lra.
    rewrite (Q.min_l _ _ H). repeat split; lra.
Qed.

Lemma clickMax_prefills_min_witness :
  exists r, repayAmount (clickMax (page alice (Val 500) Blank)) = Val r
            /\ r == Qmin (money alice) (loan alice)
            /\ r <= money alice /\ r <= loan alice.
Proof.
  apply (clickMax_prefills_min (page alice (Val 500) Blank) alice).
  reflexivity.
Defined.

End LoanPageFacts.

(** ** MarketDetail: stake guards and the one-stake gate *)

Module MarketDetailFacts.
Import MarketDetail.

Lemma js_or_truthy x d : js_truthy x = true -> js_or x d = x.
Proof. intros H. unfold js_or. now rewrite H. Qed.

Lemma base_price_or_some b m d :
  Bet.base_price b = Some m -> 0 < m -> base_price_or b d = m.
Proof.
  intros Hb Hm. unfold base_price_or. rewrite Hb.
  apply js_or_truthy. now apply js_truthy_pos.
Qed.

(** With no minimum above the amount, the minimum test lets it through. *)
Lemma base_price_or_zero_le b a :
  0 < a ->
  ~ belowMinimum b a ->
  js_lt a (base_price_or b 0) = false.
Proof.
  intros Ha Hno. apply js_lt_false. unfold base_price_or.
  destruct (Bet.base_price b) as [m|] eqn:Hb.
  - rewrite js_or_zero. apply Qnot_lt_le. intros Hlt. apply Hno. now exists m.
  - now apply Qlt_le_weak.
Qed.

Lemma belowMinimum_dec b a : {belowMinimum b a} + {~ belowMinimum b a}.
Proof.
  unfold belowMinimum. destruct (Bet.base_price b) as [m|].
  - destruct (Qlt_le_dec a m) as [Hlt | Hle].
    + left. now exists m.
    + right. intros [m' [E Hlt]]. injection E as <-.
      now apply Qle_not_lt in Hle.
  - right. intros [m' [E _]]. discriminate E.
Qed.

Section WithParseFloat.
Variable parseFloat : string -> option Q.

(** C6 as the page implements it.  A stake whose amount is not positive,
    is below the market's minimum, or is above the user's balance is
    refused before anything else happens: only the error text changes and
    no request is sent.  The error is 'Invalid amount.' for an amount that
    is not positive, the minimum-bet one for a positive amount below the
    minimum, and 'Insufficient funds.' for a positive amount that is not
    below the minimum but above the balance. *)
Theorem handlePlaceBet_rejects_bad_amount api st u a :
  user st = Some u ->
  parseFloat (amount st) = Some a ->
  a <= 0 \/ belowMinimum (bet st) a \/ money u < a ->
  exists err,
    handlePlaceBet parseFloat api st = (setBettingError st err, [])
    /\ ((a <= 0 /\ err = InvalidAmount)
        \/ (0 < a /\ exists m, Bet.base_price (bet st) = Some m /\ a < m
                              /\ err = MinimumBetIs m)
        \/ (0 < a /\ ~ belowMinimum (bet st) a /\ money u < a
            /\ err = InsufficientFunds)).
Proof.
  intros Hu Hp Hbad.
  destruct (Qlt_le_dec 0 a) as [Ha | Ha].
  2:{ exists InvalidAmount. split.
      - unfold handlePlaceBet. rewrite Hu, Hp.
        replace (js_le a 0) with true by (symmetry; now apply js_le_true).
        reflexivity.
      - left. now split. }
  assert (Hle : js_le a 0 = false) by (now apply js_le_false).
  destruct (belowMinimum_dec (bet st) a) as [[m [Hb Hlt]] | Hno].
  - exists (MinimumBetIs m). split.
    + assert (Hm : 0 < m) by lra.
      unfold handlePlaceBet. rewrite Hu, Hp, Hle.
      rewrite !(base_price_or_some (bet st) m _ Hb Hm).
      replace (js_lt a m) with true by (symmetry; now apply js_lt_true).
      reflexivity.
    + right. left. split; [assumption|]. exists m. repeat split; assumption.
  - destruct Hbad as [Hnp | [Hlow | Hlt]];
      [now apply Qlt_not_le in Ha | contradiction |].
    exists InsufficientFunds. split.
    + unfold handlePlaceBet. rewrite Hu, Hp, Hle.
      rewrite (base_price_or_zero_le (bet st) a Ha Hno).
      replace (js_lt (money u) a) with true by (symmetry; now apply js_lt_true).
      reflexivity.
    + right. right. repeat split; assumption.
Qed.

Lemma hasBet_true st u :
  user st = Some u ->
  (exists p, In p (Bet.participants (bet st)) /\ Participant.user p = email u) ->
  hasBet st = true.
Proof.
  intros Hu [p [Hin Hp]]. unfold hasBet. rewrite Hu.
  apply existsb_exists. exists p. split; [assumption|].
  rewrite Hp. apply String.eqb_refl.
Qed.

(** C7 as the page implements it.  For a user who is already in the
    participant list the Place Bet button is disabled: a click changes
    nothing and sends no request, so no second stake is placed and the
    balance stays; the button reads 'Already Bet' unless a bet is being
    placed.  No error text is set. *)
Theorem clickPlaceBet_blocked_when_already_bet api st u :
  user st = Some u ->
  (exists p, In p (Bet.participants (bet st)) /\ Participant.user p = email u) ->
  clickPlaceBet parseFloat api st = (st, [])
  /\ placeBetLabel st
     = (if placingBet st then "Placing Bet..." else "Already Bet").
Proof.
  intros Hu Hin. pose proof (hasBet_true st u Hu Hin) as Hb. split.
  - unfold clickPlaceBet, placeBetDisabled. rewrite Hb.
    now rewrite !orb_true_r.
  - unfold placeBetLabel. now rewrite Hb.
Qed.

End WithParseFloat.

Lemma handlePlaceBet_rejects_bad_amount_witness :
  exists err,
    handlePlaceBet parse_sample accepting (page cy market "5")
      = (setBettingError (page cy market "5") err, [])
    /\ ((5 <= 0 /\ err = InvalidAmount)
        \/ (0 < 5 /\ exists m, Bet.base_price market = Some m /\ 5 < m
                              /\ err = MinimumBetIs m)
        \/ (0 < 5 /\ ~ belowMinimum market 5 /\ money cy < 5
            /\ err = InsufficientFunds)).
Proof.
  apply (handlePlaceBet_rejects_bad_amount parse_sample accepting
           (page cy market "5") cy 5).
  - reflexivity.
  - reflexivity.
  - right. left. exists 10. split; reflexivity.
Defined.

(** C6 as worded fails for an amount that is not positive: 0 is below the
    minimum of 10, and the page answers 'Invalid amount.', which is neither
    the minimum-bet error nor 'Insufficient funds.'. *)
Lemma zero_stake_gets_invalid_amount :
  belowMinimum market 0
  /\ handlePlaceBet parse_sample accepting (page cy market "0")
     = (setBettingError (page cy market "0") InvalidAmount, [])
  /\ ~ (exists err,
          handlePlaceBet parse_sample accepting (page cy market "0")
            = (setBettingError (page cy market "0") err, [])
          /\ ((exists m, err = MinimumBetIs m) \/ err = InsufficientFunds)).
Proof.
  split; [exists 10; split; reflexivity|]. split; [reflexivity|].
  intros [err [H [[m Hm] | Hi]]]; subst err; discriminate H.
Qed.

Example handlePlaceBet_below_minimum :
  handlePlaceBet parse_sample accepting (page cy market "5")
    = (setBettingError (page cy market "5") (MinimumBetIs 10), []).
Proof. reflexivity. Qed.

Example handlePlaceBet_unfunded :
  handlePlaceBet parse_sample accepting (page bob market "50")
    = (setBettingError (page bob market "50") InsufficientFunds, []).
Proof. reflexivity. Qed.

Example handlePlaceBet_sends :
  snd (handlePlaceBet parse_sample accepting (page cy market "50"))
    = [JoinBet (mkPayload "m1" "cy@example.com" 50 "Yes");
       GetUser "cy@example.com"; GetBet "m1"].
Proof. reflexivity. Qed.

Lemma clickPlaceBet_blocked_when_already_bet_witness :
  clickPlaceBet parse_sample accepting (page ann market "50")
    = (page ann market "50", [])
  /\ placeBetLabel (page ann market "50")
     = (if placingBet (page ann market "50")
        then "Placing Bet..." else "Already Bet").
Proof.
  apply (clickPlaceBet_blocked_when_already_bet parse_sample accepting
           (page ann market "50") ann).
  - reflexivity.
  - exists (Participant.mk "ann@example.com" "Yes" 100). split.
    + simpl. left. reflexivity.
    + reflexivity.
Defined.

(** C7 as worded asks for an error on the second attempt.  Ann has staked
    on [market]; her click on Place Bet with 50 typed in reports no error,
    and nothing is sent. *)
Lemma second_stake_reports_no_error :
  hasBet (page ann market "50") = true
  /\ ~ reports_error
        (fst (clickPlaceBet parse_sample accepting (page ann market "50")))
  /\ snd (clickPlaceBet parse_sample accepting (page ann market "50")) = [].
Proof.
  split; [reflexivity|]. split; [|reflexivity].
  intros H. apply H. reflexivity.
Qed.

End MarketDetailFacts.

(** ** Sums of stakes *)

Lemma fold_amounts_from (l : list Participant.t) (acc : Q) :
  fold_left (fun sum p => sum + Participant.amount p) l acc
  == acc + fold_left (fun sum p => sum + Participant.amount p) l 0.
Proof.
  revert acc. induction l as [|p l IH]; intros acc; simpl.
  - ring.
  - rewrite (IH (acc + Participant.amount p)), (IH (0 + Participant.amount p)). ring.
Qed.




Lemma Math_round_compat x y : x == y -> Math_round x = Math_round y.
Proof. intros E. unfold Math_round. now rewrite E. Qed.

(** A count out of a positive total is a percentage between 0 and 100. *)
Lemma Math_round_share (c t : nat) :
  (c <= t)%nat -> (0 < t)%nat ->
  (0 <= Math_round
          (js_mul (js_div (inject_Z (Z.of_nat c)) (inject_Z (Z.of_nat t))) 100)
   <= 100)%Z.
Proof.
  intros Hct Ht.
  assert (Hc0 : 0 <= inject_Z (Z.of_nat c)).
  { change 0 with (inject_Z 0). rewrite <- Zle_Qle. lia. }
  assert (Ht0 : 0 < inject_Z (Z.of_nat t)).
  { change 0 with (inject_Z 0). rewrite <- Zlt_Qlt. lia. }
  assert (Hle : inject_Z (Z.of_nat c) <= inject_Z (Z.of_nat t)).
  { rewrite <- Zle_Qle. lia. }
  unfold js_div. apply percent_of_share_range.
  - apply Qle_shift_div_l; [exact Ht0|]. lra.
  - apply Qle_shift_div_r; [exact Ht0|]. lra.
Qed.

(** On whole amounts whose sum stays below [2 ^ 53] = 9007199254740992
    the additions of the source need no rounding. *)
Lemma fold_whole_amounts (l : list Participant.t) :
  whole_stakes l ->
  forall acc n,
    acc == inject_Z n -> (0 <= n)%Z ->
    fold_left (fun sum p => sum + Participant.amount p) l acc < 9007199254740992 ->
    fold_left (fun sum p => js_add sum (Participant.amount p)) l acc
    == fold_left (fun sum p => sum + Participant.amount p) l acc.
Proof.
  induction 1 as [|p l [k [Hk Ek]] Hl IH]; intros acc n En Hn Hlt;
    cbn [fold_left] in *.
  - reflexivity.
  - assert (Hrest : 0 <= fold_left (fun sum p => sum + Participant.amount p) l 0).
    { clear - Hl. induction Hl as [|q l [j [Hj Ej]] _ IHl];
        cbn [fold_left]; [apply Qle_refl|].
      rewrite fold_amounts_from.
      assert (0 <= inject_Z j) by (change 0 with (inject_Z 0); now rewrite <- Zle_Qle).
      lra. }
    assert (Es : acc + Participant.amount p == inject_Z (n + k))
      by (rewrite inject_Z_plus, En, Ek; reflexivity).
    assert (Hs : (n + k < 2 ^ 53)%Z).
    { rewrite fold_amounts_from in Hlt. rewrite Es in Hlt.
      assert (Hq : inject_Z (n + k) < inject_Z 9007199254740992).
      { change (inject_Z 9007199254740992) with 9007199254740992.
        set (r := fold_left (fun sum p => sum + Participant.amount p) l 0) in *.
        clearbody r. lra. }
      rewrite <- Zlt_Qlt in Hq. lia. }
    assert (Ed : js_add acc (Participant.amount p) == inject_Z (n + k)).
    { unfold js_add. rewrite (round64_compat _ _ Es).
      apply whole_is_double. lia. }
    assert (Eacc : forall x y, x == y ->
              fold_left (fun sum p => sum + Participant.amount p) l x
              == fold_left (fun sum p => sum + Participant.amount p) l y).
    { intros x y E. rewrite (fold_amounts_from l x), (fold_amounts_from l y), E.
      reflexivity. }
    assert (Eadd : js_add acc (Participant.amount p) == acc + Participant.amount p)
      by (rewrite Ed, Es; reflexivity).
    rewrite (IH (js_add acc (Participant.amount p)) (n + k)%Z Ed).
    + now apply Eacc.
    + lia.
    + rewrite (Eacc _ _ Eadd). exact Hlt.
Qed.

(** Stakes with cents need not add up exactly: [0.1 + 0.2] is
    0.30000000000000004 in the source, above the sum of the two doubles. *)
Example running_sum_rounds :
  sideAmount64 tenths "Yes" == 1351079888211149 / 2 ^ 52
  /\ sideAmount tenths "Yes" < sideAmount64 tenths "Yes".
Proof. split; vm_compute; reflexivity. Qed.

(** X22. On a market whose stakes are whole amounts, none negative, with
    less than [2 ^ 53] on each outcome, the sum the market page adds up for
    an outcome is the exact sum of its stakes: no addition rounds. *)
Theorem whole_stakes_exact_sums b :
  whole_stakes (Bet.participants b) ->
  (forall o, In o (Bet.outcomes b) ->
             sideAmount (Bet.participants b) o < 9007199254740992) ->
  exact_sums b.
Proof.
  intros Hw Hlt o Hin. unfold sideAmount64. unfold sideAmount in *.
  apply (fold_whole_amounts _) with (n := 0%Z).
  - apply Forall_forall. intros p Hp. apply filter_In in Hp.
    unfold whole_stakes in Hw. rewrite Forall_forall in Hw. now apply Hw.
  - reflexivity.
  - lia.
  - now apply Hlt.
Qed.

Lemma whole_stakes_exact_sums_witness : exact_sums MarketDetail.market.
Proof.
  apply (whole_stakes_exact_sums MarketDetail.market).
  - constructor; [exists 100%Z; split; [lia | reflexivity]|].
    constructor; [exists 50%Z; split; [lia | reflexivity]|]. constructor.
  - intros o [<- | [<- | []]]; reflexivity.
Defined.

(** ** Dashboards: the completed and active lists *)

Module DashboardFacts.
Import PublicDashboard PrivateDashboard.

Lemma filter_complement_perm {A} (f g : A -> bool) (l : list A) :
  (forall x, g x = negb (f x)) ->
  Permutation (filter g l ++ filter f l) l.
Proof.
  intros Hg. induction l as [|a l IH]; simpl.
  - constructor.
  - rewrite (Hg a). destruct (f a); simpl.
    + apply Permutation_sym, Permutation_cons_app, Permutation_sym, IH.
    + now constructor.
Qed.

Lemma isActive_negb b : isActive b = negb (isCompleted b).
Proof. unfold isActive, isCompleted. now rewrite negb_orb. Qed.

Lemma isCompleted_status b : isCompleted b = true <-> completedStatus b.
Proof.
  unfold isCompleted, completedStatus.
  now rewrite orb_true_iff, !String.eqb_eq.
Qed.

Lemma isActive_status b : isActive b = true <-> ~ completedStatus b.
Proof.
  rewrite isActive_negb, negb_true_iff, <- isCompleted_status.
  now rewrite not_true_iff_false.
Qed.

(** The two status filters split any list they are applied to. *)
Lemma status_filters_split l :
  splits_by_status l (filter isActive l) (filter isCompleted l).
Proof.
  split; [|split].
  - apply filter_complement_perm, isActive_negb.
  - intros b. rewrite filter_In, isCompleted_status. reflexivity.
  - intros b. rewrite filter_In, isActive_status. reflexivity.
Qed.

(** C9 as the dashboards implement it.  The public dashboard splits the
    fetched markets into active and completed by status.  The private
    dashboard first sets the markets the user created aside, whatever their
    status, and splits the others the same way: created, joined and
    completed together hold the fetched markets, each once. *)
Theorem dashboards_split_by_status (l : list Bet.t) (userEmail : string) :
  splits_by_status l (fst (fetchBets (Markets l))) (snd (fetchBets (Markets l)))
  /\ (let pools := fetchData userEmail l in
      createdPools pools = filter (fun b => sameUser (Bet.creator b) userEmail) l
      /\ splits_by_status
           (filter (fun b => negb (sameUser (Bet.creator b) userEmail)) l)
           (joinedPools pools) (completedPools pools)
      /\ Permutation
           (createdPools pools ++ joinedPools pools ++ completedPools pools) l).
Proof.
  split; [apply status_filters_split|].
  simpl. split; [reflexivity|]. split; [apply status_filters_split|].
  set (own := fun b => sameUser (Bet.creator b) userEmail).
  set (other := fun b => negb (sameUser (Bet.creator b) userEmail)).
  apply Permutation_trans with (filter own l ++ filter other l)%list.
  - apply Permutation_app_head.
    apply (filter_complement_perm isCompleted isActive), isActive_negb.
  - apply Permutation_trans with (filter other l ++ filter own l)%list.
    + apply Permutation_app_comm.
    + now apply filter_complement_perm.
Qed.

(** C9 as worded fails on the private dashboard: a closed market that the
    signed-in user created is fetched, yet it is in neither the joined nor
    the completed list, so these two do not split the fetched markets. *)
Lemma own_closed_market_in_neither_list :
  ~ splits_by_status [own_closed]
      (joinedPools (fetchData "host@example.com" [own_closed]))
      (completedPools (fetchData "host@example.com" [own_closed])).
Proof.
  intros [_ [Hc _]].
  assert (Hin : In own_closed
                   (completedPools (fetchData "host@example.com" [own_closed]))).
  { apply Hc. split; [now left|]. right. reflexivity. }
  exact Hin.
Qed.

Example fetchBets_sample :
  fetchBets (Markets [MarketDetail.market; own_closed])
    = ([MarketDetail.market], [own_closed]).
Proof. reflexivity. Qed.

Example fetchData_sample :
  fetchData "Host@Example.com " [MarketDetail.market; own_closed]
    = mkPools [MarketDetail.market; own_closed] [] [].
Proof. reflexivity. Qed.

End DashboardFacts.

(** ** PublicDashboard: [getStats] *)

Module GetStatsFacts.
Import JS PublicDashboard.

Lemma mapM_normal {A B} (f : A -> B) (l : list A) :
  mapM (fun a => Normal (f a)) l = Normal (map f l).
Proof.
  induction l as [|a l IH]; simpl; [reflexivity|]. now rewrite IH.
Qed.

Lemma mapM_ext {A B} (f g : A -> Completion B) (l : list A) :
  (forall a, f a = g a) -> mapM f l = mapM g l.
Proof.
  intros E. induction l as [|a l IH]; simpl; [reflexivity|].
  now rewrite (E a), IH.
Qed.

Lemma get_readable p key : readable p -> get p key = Normal (member p key).
Proof.
  intros [Hu Hn]. unfold member.
  destruct p; simpl; try reflexivity; congruence.
Qed.

(** On readable participants the filter callback never throws. *)
Lemma filterM_prediction ps outcome :
  Forall readable ps ->
  filterM (fun p => pr <- get p "prediction" ;; Normal (strict_eq pr outcome)) ps
  = Normal (filter (fun p => strict_eq (member p "prediction") outcome) ps).
Proof.
  induction 1 as [|p ps Hp _ IH]; simpl; [reflexivity|].
  rewrite (get_readable p "prediction" Hp). simpl. now rewrite IH.
Qed.

Lemma strict_eq_length_zero (n : nat) :
  strict_eq (nat_num n) (Num 0) = (n =? 0)%nat.
Proof. destruct n; reflexivity. Qed.

Section WithParse.
Variable JSON_parse : Value -> Completion Value.

Lemma getStats_arrays bet ps os :
  parsedFields JSON_parse bet = (Arr ps, Arr os) ->
  Forall readable ps ->
  getStats JSON_parse bet = Normal (map (entry ps) os).
Proof.
  intros Hf Hps. unfold getStats. rewrite Hf.
  cbn [get bind]. rewrite String.eqb_refl, strict_eq_length_zero.
  destruct ps as [|p ps]; cbn [Nat.eqb List.length array_map].
  - apply mapM_normal.
  - rewrite <- (mapM_normal (entry (p :: ps)) os).
    apply mapM_ext. intros o. unfold array_filter.
    now rewrite (filterM_prediction (p :: ps) o Hps).
Qed.

Lemma entry_percent_range ps outcome :
  (0 <= percent (entry ps outcome) <= 100)%Z.
Proof.
  destruct ps as [|p ps]; [simpl; lia|].
  unfold entry, percentOf, nat_num. cbn [percent].
  apply Math_round_share.
  - apply filter_length_le.
  - simpl. lia.
Qed.

(** C10 on the records [getStats] is written for.  When the fields it
    reads are arrays, or texts that parse to arrays, and no participant is
    [null], it returns one entry per outcome, in order, each with a
    percentage from 0 to 100; a missing record or a text that is not JSON
    makes it fall back to no participants and the outcomes Yes and No. *)
Theorem getStats_total_on_arrays bet ps os :
  parsedFields JSON_parse bet = (Arr ps, Arr os) ->
  Forall readable ps ->
  exists stats,
    getStats JSON_parse bet = Normal stats
    /\ map name stats = os
    /\ Forall (fun s => (0 <= percent s <= 100)%Z) stats
    /\ (forall e, readFields JSON_parse bet = Throw e ->
        stats = [mkStat (Str "Yes") 0; mkStat (Str "No") 0]).
Proof.
  intros Hf Hps. exists (map (entry ps) os).
  split; [now apply getStats_arrays|]. split; [|split].
  - rewrite map_map. rewrite <- (map_id os) at 2. apply map_ext.
    intros o. destruct ps; reflexivity.
  - apply Forall_forall. intros s Hs. apply in_map_iff in Hs.
    destruct Hs as [o [<- _]]. apply entry_percent_range.
  - intros e He. unfold parsedFields in Hf. rewrite He in Hf.
    injection Hf as <- <-. reflexivity.
Qed.

End WithParse.

(** A record that lacks both fields is read through the two default
    texts, whatever else it holds. *)
Section DefaultTexts.
Variable JSON_parse : Value -> Completion Value.
Hypothesis parse_empty : JSON_parse (Str "[]") = Normal (Arr []).
Hypothesis parse_yes_no :
  JSON_parse (Str default_outcomes) = Normal (Arr [Str "Yes"; Str "No"]).

Lemma getStats_without_fields fields :
  lookup fields "participants" = Undefined ->
  lookup fields "outcomes" = Undefined ->
  getStats JSON_parse (Obj fields)
  = Normal [mkStat (Str "Yes") 0; mkStat (Str "No") 0].
Proof.
  intros Hp Ho.
  rewrite (getStats_arrays JSON_parse (Obj fields) [] [Str "Yes"; Str "No"]).
  - reflexivity.
  - unfold parsedFields, readFields. cbn [get bind]. rewrite Hp, Ho.
    unfold read. cbn [isArray or truthy]. now rewrite parse_empty, parse_yes_no.
  - constructor.
Qed.

End DefaultTexts.

Lemma getStats_total_on_arrays_witness :
  exists stats,
    getStats parse_defaults broken_record = Normal stats
    /\ map name stats = [Str "Yes"; Str "No"]
    /\ Forall (fun s => (0 <= percent s <= 100)%Z) stats
    /\ (forall e, readFields parse_defaults broken_record = Throw e ->
        stats = [mkStat (Str "Yes") 0; mkStat (Str "No") 0]).
Proof.
  apply (getStats_total_on_arrays parse_defaults broken_record
           [] [Str "Yes"; Str "No"]).
  - reflexivity.
  - constructor.
Defined.

Example getStats_missing_fields :
  getStats parse_defaults (Obj [])
    = Normal [mkStat (Str "Yes") 0; mkStat (Str "No") 0].
Proof. reflexivity. Qed.

Example getStats_no_record :
  getStats parse_defaults Undefined
    = Normal [mkStat (Str "Yes") 0; mkStat (Str "No") 0].
Proof. reflexivity. Qed.

(** C10 as worded fails: on [null_participant] the filter callback reads
    [p.prediction] of [null] outside the [try], and [getStats] throws. *)
Lemma getStats_throws_on_null_participant :
  getStats parse_defaults null_participant = Throw TypeError
  /\ ~ (exists stats, getStats parse_defaults null_participant = Normal stats).
Proof.
  split; [reflexivity|]. intros [stats H]. discriminate H.
Qed.

(** So does a field whose text is JSON for something other than an array:
    here both fields hold the text of an empty object. *)
Example getStats_throws_on_object_text :
  getStats (fun _ => Normal (Obj []))
           (Obj [("participants", Str "{}"); ("outcomes", Str "{}")])
    = Throw TypeError.
Proof. reflexivity. Qed.

End GetStatsFacts.

(** ** Live odds on the two pages *)

Module OddsFacts.
Import JS PublicDashboard.








Example detail_percents :
  map MarketDetail.percent (MarketDetail.outcomeStats MarketDetail.market)
    = [67%Z; 33%Z].
Proof. vm_compute. reflexivity. Qed.

Example detail_percents_empty_pool :
  map MarketDetail.percent (MarketDetail.outcomeStats MarketDetail.empty_market)
    = [33%Z; 33%Z; 33%Z].
Proof. vm_compute. reflexivity. Qed.


Example dashboard_percents_empty_pool :
  getStats parse_defaults (bet_value MarketDetail.empty_market)
    = Normal [mkStat (Str "Yes") 0; mkStat (Str "No") 0; mkStat (Str "Draw") 0].
Proof. reflexivity. Qed.

(** 23 out of 40 is 57.5%, but the double [23 / 40] times 100 is
    57.49999999999999, and both pages show 57. *)
Example share_23_of_40 :
  js_mul (js_div 23 40) 100 == 8092405580431359 / 2 ^ 47
  /\ Odds.percentage 23 40 = 57%Z
  /\ Math_round (23 / 40 * 100) = 58%Z.
Proof. repeat split; vm_compute; reflexivity. Qed.

Example detail_percents_23_of_40 :
  map MarketDetail.percent (MarketDetail.outcomeStats Odds.forty_in_two)
    = [57%Z; 43%Z].
Proof. vm_compute. reflexivity. Qed.

Example dashboard_percents_23_of_40 :
  getStats parse_defaults (bet_value Odds.forty_singles)
    = Normal [mkStat (Str "Yes") 57; mkStat (Str "No") 43].
Proof. vm_compute. reflexivity. Qed.

(** So the market page, too, departs from the live odds rounded to a whole
    percentage, by the rounding of the quotient. *)
Example market_page_not_rounded_odds :
  ~ Odds.shows_live_odds Odds.forty_in_two
      (map MarketDetail.percent (MarketDetail.outcomeStats Odds.forty_in_two)).
Proof. intros H. vm_compute in H. discriminate H. Qed.


End OddsFacts.

(** ** The client's return figures against the settlement *)

Module ReturnFacts.
Import MarketDetail PrivateDashboard.





(** The scenario of the specification: Yes is declared; Ann, the only
    winner, receives 130 and Bob is refunded 20. *)
Example settlement_scenario :
  Settlement.payout 150 (Bet.participants market) "Yes" ann_stake == 130
  /\ Settlement.payout 150 (Bet.participants market) "Yes"
                       (Participant.mk "bob@example.com" "No" 50) == 20.
Proof. split; reflexivity. Qed.

Example potentialReturn_ann : potentialReturn market "ann@example.com" == 150.
Proof. reflexivity. Qed.

Example estPayout_yes_50 : estPayout market "Yes" 50 == 200 # 3.
Proof. reflexivity. Qed.


End ReturnFacts.

(** * Further properties of the pages *)

(** ** LoanPage: which requests go out, the limit, the due date *)

Module LoanRequests.
Import LoanPage.

Lemma field_truthy_pos a : 0 < Number a -> field_falsy a = false.
Proof.
  destruct a as [|q]; simpl; intros H.
  - now apply Qlt_irrefl in H.
  - now rewrite (js_truthy_pos q H).
Qed.

Lemma valid_amount_pos a :
  field_falsy a || js_le (Number a) 0 = false <-> 0 < Number a.
Proof.
  split.
  - intros H. apply orb_false_iff in H. now apply js_le_false.
  - intros H. rewrite (field_truthy_pos a H). now apply js_le_false.
Qed.

(** X1. [handleBorrow] asks the server for a loan exactly when a user is
    signed in, the typed amount is positive and the loan balance plus that
    amount, added in double precision, stays within the limit; the request
    carries the user's email and the typed amount. *)
Theorem handleBorrow_sends_iff api st e a :
  In (ApplyLoan e a) (snd (handleBorrow api st)) <->
  exists u, user st = Some u /\ e = email u /\ a = Number (borrowAmount st)
            /\ 0 < a /\ js_add (userLoan st) a <= loanLimit st.
Proof.
  unfold handleBorrow. destruct (user st) as [u|] eqn:Hu.
  2:{ split; [intros []|intros [u [H _]]; discriminate H]. }
  destruct (field_falsy (borrowAmount st) || js_le (Number (borrowAmount st)) 0)
    eqn:Ev.
  { split; [intros []|]. intros [u' [_ [_ [-> [Hpos _]]]]].
    apply valid_amount_pos in Hpos. congruence. }
  apply valid_amount_pos in Ev.
  destruct (js_gt (js_add (userLoan st) (Number (borrowAmount st))) (loanLimit st))
    eqn:El.
  { split; [intros []|]. intros [u' [_ [_ [-> [_ Hle]]]]].
    apply js_gt_true in El. now apply Qlt_not_le in El. }
  apply js_gt_false in El.
  assert (Hfirst :
            forall rest,
              In (ApplyLoan e a)
                 (ApplyLoan (email u) (Number (borrowAmount st)) :: rest) ->
              (forall r, In r rest -> exists m, r = GetUser m) ->
              e = email u /\ a = Number (borrowAmount st)).
  { intros rest [H | H] Hrest.
    - injection H as <- <-. now split.
    - destruct (Hrest _ H) as [m Hm]. discriminate Hm. }
  split.
  - intros H. exists u.
    assert (He : e = email u /\ a = Number (borrowAmount st)).
    { destruct (applyLoan api (email u) (Number (borrowAmount st))) as [err|];
        [destruct (reply_error err)|]; simpl in H.
      - apply (Hfirst [] H). intros r [].
      - apply (Hfirst [GetUser (email u)] H).
        intros r [<- | []]. now eexists.
      - apply (Hfirst [] H). intros r []. }
    destruct He as [-> ->]. repeat split; assumption.
  - intros [u' [Hu' [-> [-> _]]]]. injection Hu' as <-.
    destruct (applyLoan api (email u) (Number (borrowAmount st))) as [err|];
      [destruct (reply_error err)|]; simpl; now left.
Qed.

(** X2. [handleRepay] sends a repayment exactly when a user is signed in
    and the typed amount is positive and not above the balance; it is not
    compared with the loan. *)
Theorem handleRepay_sends_iff api st e a :
  In (RepayLoan e a) (snd (handleRepay api st)) <->
  exists u, user st = Some u /\ e = email u /\ a = Number (repayAmount st)
            /\ 0 < a /\ a <= userMoney st.
Proof.
  unfold handleRepay. destruct (user st) as [u|] eqn:Hu.
  2:{ split; [intros []|intros [u [H _]]; discriminate H]. }
  destruct (field_falsy (repayAmount st) || js_le (Number (repayAmount st)) 0)
    eqn:Ev.
  { split; [intros []|]. intros [u' [_ [_ [-> [Hpos _]]]]].
    apply valid_amount_pos in Hpos. congruence. }
  apply valid_amount_pos in Ev.
  destruct (js_gt (Number (repayAmount st)) (userMoney st)) eqn:El.
  { split; [intros []|]. intros [u' [_ [_ [-> [_ Hle]]]]].
    apply js_gt_true in El. now apply Qlt_not_le in El. }
  apply js_gt_false in El.
  assert (Hfirst :
            forall rest,
              In (RepayLoan e a)
                 (RepayLoan (email u) (Number (repayAmount st)) :: rest) ->
              (forall r, In r rest -> exists m, r = GetUser m) ->
              e = email u /\ a = Number (repayAmount st)).
  { intros rest [H | H] Hrest.
    - injection H as <- <-. now split.
    - destruct (Hrest _ H) as [m Hm]. discriminate Hm. }
  split.
  - intros H. exists u.
    assert (He : e = email u /\ a = Number (repayAmount st)).
    { destruct (repayLoan api (email u) (Number (repayAmount st))) as [err|];
        [destruct (reply_error err)|]; simpl in H.
      - apply (Hfirst [] H). intros r [].
      - apply (Hfirst [GetUser (email u)] H).
        intros r [<- | []]. now eexists.
      - apply (Hfirst [] H). intros r []. }
    destruct He as [-> ->]. repeat split; assumption.
  - intros [u' [Hu' [-> [-> _]]]]. injection Hu' as <-.
    destruct (repayLoan api (email u) (Number (repayAmount st))) as [err|];
      [destruct (reply_error err)|]; simpl; now left.
Qed.

(** A repayment above the outstanding loan is sent all the same. *)
Example handleRepay_above_loan :
  snd (handleRepay accepting
         (page (mkUser "Dee" "dee@example.com" 300 600 0 100) (Val 250) Blank))
    = [RepayLoan "dee@example.com" 250; GetUser "dee@example.com"].
Proof. reflexivity. Qed.

Ltac split_tiers :=
  repeat match goal with
  | |- context [js_lt ?a ?b] =>
    let E := fresh "E" in
    destruct (js_lt a b) eqn:E;
    [apply js_lt_true in E | apply js_lt_false in E]
  end.

(** X3. The borrowing limit never falls when the trust score rises, and it
    always lies between 0 and 5000. *)
Theorem loanLimit_monotone st1 st2 :
  userTrust st1 <= userTrust st2 ->
  loanLimit st1 <= loanLimit st2
  /\ 0 <= loanLimit st1 /\ loanLimit st1 <= 5000.
Proof.
  intros H. unfold loanLimit, calculatedLimit, loanLimitMultiplier, baseLimit.
  split_tiers;
    first [ repeat split; apply Qle_bool_imp_le; reflexivity
          | exfalso; lra ].
Qed.

Lemma loanLimit_monotone_witness :
  loanLimit (page alice Blank Blank)
  <= loanLimit (page (mkUser "Bob" "bob@example.com" 0 900 0 0) Blank Blank)
  /\ 0 <= loanLimit (page alice Blank Blank)
  /\ loanLimit (page alice Blank Blank) <= 5000.
Proof.
  apply (loanLimit_monotone (page alice Blank Blank)
           (page (mkUser "Bob" "bob@example.com" 0 900 0 0) Blank Blank)).
  discriminate.
Defined.

End LoanRequests.

Module LoanDueFacts.
Import LoanDue.



Example dueDateString_one_day :
  dueDateString (Some borrower) 913600000 = InDays 1.
Proof. vm_compute. reflexivity. Qed.

Example dueDateString_a_second_more :
  dueDateString (Some borrower) 913599000 = InDays 2.
Proof. vm_compute. reflexivity. Qed.

Example dueDateString_on_the_dot :
  dueDateString (Some borrower) 1000000000 = Overdue.
Proof. vm_compute. reflexivity. Qed.

(** A due date of 1699999999.002 is the double [7130316795814085 / 2 ^ 22],
    a little above that figure; at the millisecond 1699999999002 the
    quotient [Date.now() / 1000] is the same double and the page shows
    'Overdue'. *)
Example dueDateString_same_double :
  round64 (1699999999002 / 1000) == 7130316795814085 / 2 ^ 22
  /\ dueDateString
       (Some (mkLoanUser LoanPage.alice None
                         (Some (round64 (1699999999002 / 1000))) None))
       1699999999002
     = Overdue.
Proof. split; vm_compute; reflexivity. Qed.

End LoanDueFacts.

(** ** MarketDetail: which stakes go out, the percentages, the likes *)

Module StakeRequests.
Import MarketDetail.

Section WithParseFloat.
Variable parseFloat : string -> option Q.

(** X5. [handlePlaceBet] sends a join-bet request exactly when a user is
    signed in and the typed amount is a positive number, not below
    [bet.base_price || 0] and not above the user's balance; the request
    carries the market id, the user's email, that amount and the chosen
    outcome. *)
Theorem handlePlaceBet_sends_iff api st p :
  In (JoinBet p) (snd (handlePlaceBet parseFloat api st)) <->
  exists u a, user st = Some u /\ parseFloat (amount st) = Some a
              /\ 0 < a /\ base_price_or (bet st) 0 <= a /\ a <= money u
              /\ p = mkPayload (Bet.id (bet st)) (email u) a (prediction st).
Proof.
  unfold handlePlaceBet. destruct (user st) as [u|] eqn:Hu.
  2:{ split; [intros []|intros [u [a [H _]]]; discriminate H]. }
  destruct (parseFloat (amount st)) as [a|] eqn:Hp.
  2:{ split; [intros []|intros [u' [a [_ [H _]]]]; discriminate H]. }
  destruct (js_le a 0) eqn:E0.
  { split; [intros []|]. intros [u' [a' [_ [[= <-] [Hpos _]]]]].
    apply js_le_true in E0. now apply Qlt_not_le in Hpos. }
  apply js_le_false in E0.
  destruct (js_lt a (base_price_or (bet st) 0)) eqn:Em.
  { split; [intros []|]. intros [u' [a' [_ [[= <-] [_ [Hmin _]]]]]].
    apply js_lt_true in Em. now apply Qlt_not_le in Em. }
  apply js_lt_false in Em.
  destruct (js_lt (money u) a) eqn:Eb.
  { split; [intros []|]. intros [u' [a' [[= <-] [[= <-] [_ [_ [Hbal _]]]]]]].
    apply js_lt_true in Eb. now apply Qlt_not_le in Eb. }
  apply js_lt_false in Eb.
  set (payload := mkPayload (Bet.id (bet st)) (email u) a (prediction st)).
  split.
  - intros H. exists u, a. repeat split; try assumption.
    destruct (joinBet api payload) as [err|];
      [destruct (reply_error err); [|destruct (getBet api (Bet.id (bet st)))]|];
      simpl in H;
      repeat match goal with
      | H : _ \/ _ |- _ => destruct H as [H | H]
      | H : JoinBet _ = JoinBet _ |- _ => injection H as <-
      | H : False |- _ => destruct H
      end; try reflexivity; discriminate.
  - intros [u' [a' [[= <-] [[= <-] [_ [_ [_ ->]]]]]]].
    destruct (joinBet api payload) as [err|];
      [destruct (reply_error err); [|destruct (getBet api (Bet.id (bet st)))]|];
      simpl; now left.
Qed.

(** X6. A click on Place Bet sends something only if the market is OPEN,
    an outcome is chosen, the user has no stake in the market yet and no
    bet is being placed. *)
Theorem clickPlaceBet_sends_only_when_open api st :
  snd (clickPlaceBet parseFloat api st) <> [] ->
  Bet.status (bet st) = "OPEN" /\ prediction st <> ""
  /\ hasBet st = false /\ placingBet st = false.
Proof.
  unfold clickPlaceBet, placeBetDisabled. intros H.
  destruct (placingBet st); [now elim H|].
  destruct (String.eqb (Bet.status (bet st)) "OPEN") eqn:Es; [|now elim H].
  destruct (String.eqb (prediction st) "") eqn:Ep; [now elim H|].
  destruct (hasBet st); [now elim H|].
  apply String.eqb_eq in Es. apply String.eqb_neq in Ep. now repeat split.
Qed.

End WithParseFloat.

Lemma clickPlaceBet_sends_only_when_open_witness :
  Bet.status (bet (page cy market "50")) = "OPEN"
  /\ prediction (page cy market "50") <> ""
  /\ hasBet (page cy market "50") = false
  /\ placingBet (page cy market "50") = false.
Proof.
  apply (clickPlaceBet_sends_only_when_open parse_sample accepting
           (page cy market "50")).
  discriminate.
Defined.

End StakeRequests.

Module EstimateFacts.
Import MarketDetail QuickBet.



(** Without that cover the page shows more than 100: a pool of 50 recorded
    for a market that holds a stake of 100. *)
Example outcomeStats_percent_over_100 :
  map percent
      (outcomeStats (Bet.mk "m4" "host@example.com" "OPEN" None 50 None
                            [ann_stake] ["Yes"; "No"]))
    = [200%Z; 0%Z].
Proof. vm_compute. reflexivity. Qed.

End EstimateFacts.

Module LikeFacts.
Import CommentLikes.

Lemma includes_without l e : includes (without l e) e = false.
Proof.
  unfold includes, without. induction l as [|x l IH]; [reflexivity|].
  simpl. destruct (String.eqb x e) eqn:E; simpl; [exact IH|].
  now rewrite E.
Qed.

Lemma without_idem l e : without (without l e) e = without l e.
Proof.
  unfold without. induction l as [|x l IH]; [reflexivity|].
  simpl. destruct (String.eqb x e) eqn:E; simpl; [exact IH|].
  rewrite E. simpl. now rewrite IH.
Qed.

Lemma includes_added l e : includes (l ++ [e]) e = true.
Proof.
  unfold includes. rewrite existsb_app. simpl.
  now rewrite String.eqb_refl, orb_true_r.
Qed.

Lemma without_added l e : without (l ++ [e]) e = without l e.
Proof.
  unfold without. rewrite filter_app. simpl.
  now rewrite String.eqb_refl, app_nil_r.
Qed.

(** X9. A like keeps the comments in place and changes only those with the
    given id: there the user's own like is flipped, while the likes of
    everybody else and the rest of the comment stay as they are. *)
Theorem updatedComments_toggles email commentId currentComments :
  Forall2 (toggled email commentId) currentComments
          (updatedComments email commentId currentComments).
Proof.
  induction currentComments as [|c cs IH]; [constructor|].
  cbn [updatedComments map]. constructor; [|exact IH].
  unfold toggled. destruct (id c) as [i|]; [|reflexivity].
  destruct (String.eqb i commentId); [|reflexivity].
  cbn [CommentLikes.id CommentLikes.user CommentLikes.name CommentLikes.text
       CommentLikes.timestamp CommentLikes.likes].
  repeat (split; [reflexivity|]). eexists. split; [reflexivity|].
  destruct (includes (likes_or_empty c) email) eqn:E.
  - split; [apply includes_without | apply without_idem].
  - split; [apply includes_added | apply without_added].
Qed.

Example like_then_unlike :
  map likes (updatedComments "bob@example.com" "c1"
               (updatedComments "bob@example.com" "c1" thread))
    = [Some ["cy@example.com"; "bob@example.com"]; None].
Proof. reflexivity. Qed.

End LikeFacts.

(** ** PublicDashboard: the time left and the filters *)

Module CountdownFacts.
Import Countdown.




Example getEndsIn_one_hour : getEndsIn 1700000000000 1700003600 = Hours 1.
Proof. vm_compute. reflexivity. Qed.

Example getEndsIn_two_days : getEndsIn 0 (2 * 86400 + 5) = Days 2.
Proof. vm_compute. reflexivity. Qed.

Example getEndsIn_last_second : getEndsIn 0 (86400 - 1) = Hours 23.
Proof. vm_compute. reflexivity. Qed.

Example getEndsIn_under_an_hour : getEndsIn 0 59 = Hours 0.
Proof. vm_compute. reflexivity. Qed.

(** An end time of 1700557114.319 is the double
    [7132653506816639 / 2 ^ 22], a little above that figure; its product
    with 1000 rounds to 1700557114319, and at that millisecond the market
    reads 'Ended'. *)
Example getEndsIn_same_double :
  round64 (1700557114319 / 1000) == 7132653506816639 / 2 ^ 22
  /\ js_mul (round64 (1700557114319 / 1000)) 1000 == 1700557114319
  /\ getEndsIn 1700557114319 (round64 (1700557114319 / 1000)) = Ended.
Proof. repeat split; vm_compute; reflexivity. Qed.

End CountdownFacts.

Module FilterFacts.
Import Filters.

Lemma includes_empty s : includes s "" = true.
Proof. destruct s; reflexivity. Qed.

(** X11. With an empty search text the category 'All' keeps every market,
    and a market without a category is listed under exactly 'All' and
    'Sports'. *)
Theorem filters_without_search (bets : list Listing) (b : Listing)
        (selectedCategory : string) :
  no_category b = true ->
  selectedCategory <> "" ->
  filteredBets "" "All" bets = bets
  /\ (matches "" selectedCategory b = true
      <-> selectedCategory = "All" \/ selectedCategory = "Sports").
Proof.
  intros Hno Hsel. split.
  - unfold filteredBets. rewrite <- (filter_true bets) at 2.
    apply filter_ext. intros x. unfold matches.
    cbn [PrivateDashboard.toLowerCase]. now rewrite includes_empty.
  - unfold matches. cbn [PrivateDashboard.toLowerCase].
    rewrite includes_empty, Hno, andb_true_r. cbn [andb].
    rewrite !orb_true_iff, !String.eqb_eq.
    split; [|tauto]. intros [[H | H] | H]; [now left | | now right].
    unfold no_category in Hno. destruct (category b) as [c|]; [|discriminate H].
    apply String.eqb_eq in Hno, H. congruence.
Qed.

Lemma filters_without_search_witness :
  filteredBets "" "All" [mkListing MarketDetail.market "Cup final" None]
    = [mkListing MarketDetail.market "Cup final" None]
  /\ (matches "" "Politics" (mkListing MarketDetail.market "Cup final" None) = true
      <-> "Politics" = "All" \/ "Politics" = "Sports").
Proof.
  apply (filters_without_search
           [mkListing MarketDetail.market "Cup final" None]
           (mkListing MarketDetail.market "Cup final" None) "Politics").
  - reflexivity.
  - discriminate.
Defined.

Example search_ignores_case :
  map title
      (filteredBets "CUP" "All"
         [mkListing MarketDetail.market "Cup final" None;
          mkListing MarketDetail.empty_market "Election night" (Some "Politics")])
    = ["Cup final"].
Proof. reflexivity. Qed.

End FilterFacts.

(** ** PrivateDashboard: the return figure and the join form *)

Module PoolRowFacts.
Import PrivateDashboard QuickBet.



End PoolRowFacts.

Module JoinPoolFacts.
Import JoinPool.

Section WithParseFloat.
Variable parseFloat : string -> option Q.

(** X13. The join form sends its request exactly when an amount is typed
    and a choice is selected; the amount goes out as parsed, with no test
    of sign, minimum or balance on the page. *)
Theorem handleJoin_sends_iff joinPrivateBet user st p :
  In (JoinPrivateBet p) (snd (handleJoin parseFloat joinPrivateBet user st)) <->
  joinAmount st <> "" /\ joinPrediction st <> ""
  /\ p = mkPayload (option_map email user) (joinCode st)
                   (parseFloat (joinAmount st)) (joinPrediction st).
Proof.
  unfold handleJoin.
  destruct (String.eqb (joinAmount st) "") eqn:Ea.
  { cbn [orb snd In]. apply String.eqb_eq in Ea. tauto. }
  destruct (String.eqb (joinPrediction st) "") eqn:Ep.
  { cbn [orb snd In]. apply String.eqb_eq in Ep. tauto. }
  apply String.eqb_neq in Ea, Ep. cbn [orb].
  set (payload := mkPayload (option_map email user) (joinCode st)
                            (parseFloat (joinAmount st)) (joinPrediction st)).
  destruct (joinPrivateBet payload) as [err|]; [destruct (reply_error err)|];
    cbn [snd In]; split;
    try (intros [_ [_ ->]]; now left);
    intros H;
    repeat match goal with
    | H : _ \/ _ |- _ => destruct H as [H | H]
    | H : JoinPrivateBet _ = JoinPrivateBet _ |- _ => injection H as <-
    | H : False |- _ => destruct H
    end; try (now repeat split); discriminate.
Qed.

(** X14. Once the join request has been sent the form shows no success
    text, whatever the answer: after an accepted join the text is set and
    wiped by the reset that follows, which also empties the code, the
    amount, the choice and the preview. *)
Theorem handleJoin_shows_no_success joinPrivateBet user st :
  snd (handleJoin parseFloat joinPrivateBet user st) <> [] ->
  joinSuccess (fst (handleJoin parseFloat joinPrivateBet user st)) = NoSuccess
  /\ (In FetchData (snd (handleJoin parseFloat joinPrivateBet user st)) ->
      fst (handleJoin parseFloat joinPrivateBet user st)
      = mkState "" None "" "" NoError NoSuccess).
Proof.
  unfold handleJoin.
  destruct (String.eqb (joinAmount st) "" || String.eqb (joinPrediction st) "");
    [intros H; now elim H|].
  intros _.
  destruct (joinPrivateBet _) as [err|]; [destruct (reply_error err)|];
    cbn [fst snd joinSuccess In handleResetJoinFlow];
    (split; [reflexivity|]); intros H; try reflexivity;
    repeat match goal with
    | H : _ \/ _ |- _ => destruct H as [H | H]
    | H : False |- _ => destruct H
    end; discriminate H.
Qed.

End WithParseFloat.

Lemma handleJoin_shows_no_success_witness :
  joinSuccess (fst (handleJoin MarketDetail.parse_sample (fun _ => Resolved None)
                               (Some MarketDetail.cy) (form "ABC123" "50" "Yes")))
  = NoSuccess
  /\ (In FetchData
         (snd (handleJoin MarketDetail.parse_sample (fun _ => Resolved None)
                          (Some MarketDetail.cy) (form "ABC123" "50" "Yes"))) ->
      fst (handleJoin MarketDetail.parse_sample (fun _ => Resolved None)
                      (Some MarketDetail.cy) (form "ABC123" "50" "Yes"))
      = mkState "" None "" "" NoError NoSuccess).
Proof.
  apply (handleJoin_shows_no_success MarketDetail.parse_sample
           (fun _ => Resolved None) (Some MarketDetail.cy)
           (form "ABC123" "50" "Yes")).
  discriminate.
Defined.

(** An amount of 0, which the market page refuses, leaves the join form. *)
Example handleJoin_sends_zero :
  snd (handleJoin MarketDetail.parse_sample (fun _ => Resolved (Some "Too low"))
                  (Some MarketDetail.cy) (form "ABC123" "0" "Yes"))
    = [JoinPrivateBet (mkPayload (Some "cy@example.com") "ABC123" (Some 0) "Yes")].
Proof. reflexivity. Qed.

End JoinPoolFacts.

(** ** AuthContext: the stored session *)

Module AuthFacts.
Import Auth.

Lemma truthy_text_some t : t <> "" -> truthy_text (Some t) = Some t.
Proof.
  intros H. unfold truthy_text. apply String.eqb_neq in H. now rewrite H.
Qed.

(** X15. Signing out after any login attempt, accepted or not, leaves no
    user, no stored email and no stored token, so that requests carry no
    Authorization header; every other key of the storage is as it was
    before the attempt. *)
Theorem logout_after_login_clears api e pw st :
  let st' := logout (fst (login api e pw st)) in
  user st' = None
  /\ getItem (localStorage st') "userEmail" = None
  /\ getItem (localStorage st') "accessToken" = None
  /\ (forall k, k <> "userEmail" -> k <> "accessToken" ->
        getItem (localStorage st') k = getItem (localStorage st) k)
  /\ authorization (getHeaders (localStorage st') true) = None.
Proof.
  cbv zeta. repeat split.
  intros k Hk1 Hk2. apply String.eqb_neq in Hk1, Hk2.
  unfold logout, login, getItem, removeItem, setItem. cbn [localStorage].
  rewrite Hk1, Hk2.
  destruct (api_login api e pw) as [err data tok|]; [|reflexivity].
  destruct (reply_error err); cbn [fst localStorage]; [reflexivity|].
  destruct (truthy_text tok); now rewrite ?Hk1, ?Hk2.
Qed.

(** X16. When the server no longer knows the user, [refreshUser] signs the
    user out and removes the stored email, but the stored token stays: the
    requests that follow still carry it. *)
Theorem refreshUser_failure_keeps_token api t st tok :
  t <> "" ->
  getUser api t = None ->
  getItem (localStorage st) "accessToken" = Some tok ->
  tok <> "" ->
  user (refreshUser api (Some t) st) = None
  /\ isLoading (refreshUser api (Some t) st) = false
  /\ getItem (localStorage (refreshUser api (Some t) st)) "userEmail" = None
  /\ authorization (getHeaders (localStorage (refreshUser api (Some t) st)) false)
     = Some ("Bearer " ++ tok).
Proof.
  intros Ht Hg Htok Hne. unfold refreshUser.
  rewrite (truthy_text_some t Ht), Hg. cbn [user isLoading localStorage].
  repeat split. unfold getHeaders, getItem, removeItem in *.
  cbn [authorization]. change (String.eqb "accessToken" "userEmail") with false.
  cbv iota. now rewrite Htok, (truthy_text_some tok Hne).
Qed.

Lemma refreshUser_failure_keeps_token_witness :
  user (refreshUser server (Some "zed@example.com")
          (mkState (Some MarketDetail.cy) false
                   (setItem empty_storage "accessToken" "tok9"))) = None
  /\ isLoading (refreshUser server (Some "zed@example.com")
                  (mkState (Some MarketDetail.cy) false
                           (setItem empty_storage "accessToken" "tok9"))) = false
  /\ getItem (localStorage
                (refreshUser server (Some "zed@example.com")
                   (mkState (Some MarketDetail.cy) false
                            (setItem empty_storage "accessToken" "tok9"))))
             "userEmail" = None
  /\ authorization
       (getHeaders
          (localStorage
             (refreshUser server (Some "zed@example.com")
                (mkState (Some MarketDetail.cy) false
                         (setItem empty_storage "accessToken" "tok9"))))
          false)
     = Some ("Bearer " ++ "tok9").
Proof.
  apply (refreshUser_failure_keeps_token server "zed@example.com"
           (mkState (Some MarketDetail.cy) false
                    (setItem empty_storage "accessToken" "tok9")) "tok9").
  - discriminate.
  - reflexivity.
  - reflexivity.
  - discriminate.
Defined.

(** X17. After an accepted login the session survives a reload of the
    page: the provider, mounting with no user, asks for the user stored
    under the login email and ends with the user the server returns (or
    signed out, if it returns none), no longer loading. *)
Theorem session_survives_reload api e pw st :
  e <> "" ->
  snd (login api e pw st) = None ->
  user (mount api (reloaded (fst (login api e pw st)))) = getUser api e
  /\ isLoading (mount api (reloaded (fst (login api e pw st)))) = false.
Proof.
  intros He Hok. unfold login in *.
  destruct (api_login api e pw) as [err data tok|]; [|discriminate Hok].
  destruct (reply_error err); [discriminate Hok|].
  cbn [fst]. unfold mount, reloaded. cbn [localStorage].
  assert (Hs : getItem
                 (match truthy_text tok with
                  | Some t => setItem (setItem (localStorage st) "userEmail" e)
                                      "accessToken" t
                  | None => setItem (localStorage st) "userEmail" e
                  end) "userEmail" = Some e).
  { destruct (truthy_text tok); reflexivity. }
  rewrite Hs, (truthy_text_some e He). unfold refreshUser.
  rewrite (truthy_text_some e He).
  destruct (getUser api e); split; reflexivity.
Qed.

Lemma session_survives_reload_witness :
  user (mount server
          (reloaded (fst (login server "ann@example.com" "pw" signed_out))))
  = getUser server "ann@example.com"
  /\ isLoading (mount server
                  (reloaded (fst (login server "ann@example.com" "pw" signed_out))))
     = false.
Proof.
  apply (session_survives_reload server "ann@example.com" "pw" signed_out).
  - discriminate.
  - reflexivity.
Defined.

Example login_refused :
  login server "bob@example.com" "pw" signed_out
    = (signed_out, Some "Invalid credentials").
Proof. reflexivity. Qed.

End AuthFacts.

(** ** CreateMarket: the list of outcomes *)

Module CreateMarketFacts.
Import CreateMarket.

Lemma remove_index_past os index i :
  (index < i)%nat -> remove_index os index i = os.
Proof.
  revert i. induction os as [|o os IH]; intros i H; [reflexivity|].
  simpl. replace (i =? index)%nat with false
    by (symmetry; apply Nat.eqb_neq; lia).
  now rewrite IH by lia.
Qed.

Lemma remove_index_length os index i :
  (List.length os <= S (List.length (remove_index os index i)))%nat.
Proof.
  revert i. induction os as [|o os IH]; intros i; simpl; [lia|].
  destruct (i =? index)%nat eqn:E.
  - apply Nat.eqb_eq in E. rewrite remove_index_past by lia. lia.
  - simpl. specialize (IH (S i)). lia.
Qed.

Lemma remove_index_In os index i x :
  In x (remove_index os index i) -> In x os.
Proof.
  revert i. induction os as [|o os IH]; intros i; simpl; [tauto|].
  destruct (i =? index)%nat; simpl; intros H.
  - right. now apply (IH (S i)).
  - destruct H as [H | H]; [now left|right; now apply (IH (S i))].
Qed.

Lemma remove_index_NoDup os index i :
  NoDup os -> NoDup (remove_index os index i).
Proof.
  intros H. revert i. induction H as [|o os Hn Hd IH]; intros i; simpl.
  - constructor.
  - destruct (i =? index)%nat; [apply IH|].
    constructor; [|apply IH]. intros Hin. apply Hn.
    now apply remove_index_In in Hin.
Qed.

Lemma includes_false_not_In os o : includes os o = false -> ~ In o os.
Proof.
  intros H Hin. unfold includes in H.
  assert (Ht : existsb (fun x => String.eqb x o) os = true).
  { apply existsb_exists. exists o. split; [assumption|apply String.eqb_refl]. }
  congruence.
Qed.

Lemma act_keeps_outcomes st a :
  well_formed_outcomes (outcomes st) ->
  well_formed_outcomes (outcomes (act st a)).
Proof.
  intros [Hlen [Hnd Hne]]. destruct a; try (now repeat split).
  - (* AddOutcome *)
    cbn [act]. unfold handleAddOutcome.
    destruct (String.eqb (PrivateDashboard.trim (newOutcome st)) "") eqn:Et;
      [now repeat split|].
    destruct (includes (outcomes st) (PrivateDashboard.trim (newOutcome st)))
      eqn:Ei; [now repeat split|].
    cbn [negb andb setOutcomes outcomes]. apply String.eqb_neq in Et.
    apply includes_false_not_In in Ei. split; [|split].
    + rewrite length_app. simpl. lia.
    + apply NoDup_app; [assumption | repeat constructor; intros [] |].
      intros x Hx [<- | []]. contradiction.
    + apply Forall_app. split; [assumption|]. now repeat constructor.
  - (* RemoveOutcome *)
    cbn [act]. unfold handleRemoveOutcome.
    destruct (2 <? List.length (outcomes st))%nat eqn:El;
      cbn [setOutcomes outcomes]; [|now repeat split].
    apply Nat.ltb_lt in El. split; [|split].
    + pose proof (remove_index_length (outcomes st) index 0). lia.
    + now apply remove_index_NoDup.
    + rewrite Forall_forall in *. intros x Hx. apply Hne.
      now apply remove_index_In in Hx.
Qed.

Lemma fold_act_keeps_outcomes actions st :
  well_formed_outcomes (outcomes st) ->
  well_formed_outcomes (outcomes (fold_left act actions st)).
Proof.
  revert st. induction actions as [|a actions IH]; intros st H; [exact H|].
  simpl. apply IH. now apply act_keeps_outcomes.
Qed.

Lemma outcomes_stay_well_formed_aux (actions : list Action) :
  well_formed_outcomes (outcomes (run actions)).
Proof.
  apply fold_act_keeps_outcomes. unfold initial, well_formed_outcomes.
  cbn [outcomes]. split; [simpl; lia|]. split.
  - repeat constructor; simpl; intuition discriminate.
  - repeat constructor; discriminate.
Qed.

(** X18. Whatever the user does to the form (typing, adding outcomes,
    removing them, in any order), the list of outcomes keeps at least two
    labels, all different and none empty. *)
Theorem outcomes_stay_well_formed (actions : list Action) :
  well_formed_outcomes (outcomes (run actions)).
Proof. exact (outcomes_stay_well_formed_aux actions). Qed.

Section WithParsers.
Variable parseFloat : string -> option Q.
Variable dateSeconds : string -> option Q.
Variable nowSeconds : Q.

Lemma basePrice_nonzero m : ~ basePrice parseFloat m == 0.
Proof.
  unfold basePrice. destruct (parseFloat m) as [q|]; [|discriminate].
  unfold js_or, js_truthy. destruct (Qeq_bool q 0) eqn:E; simpl; [discriminate|].
  now apply Qeq_bool_neq.
Qed.

(** X19. For a signed-in user, submitting the form after any sequence of
    actions always gets past the outcome test and sends one payload: it
    carries the current outcomes, at least two and all different, the
    user's email, and a minimum stake that is never 0 (10 when the field
    does not hold a non-zero number). *)
Theorem handleSubmit_always_sends createBet u (actions : list Action) :
  exists p,
    snd (handleSubmit parseFloat dateSeconds nowSeconds createBet (Some u)
                      (run actions)) = Some p
    /\ payload_outcomes p = outcomes (run actions)
    /\ well_formed_outcomes (payload_outcomes p)
    /\ creator_email p = email u
    /\ ~ base_price p == 0
    /\ (parseFloat (minBet (run actions)) = None -> base_price p = 10).
Proof.
  pose proof (outcomes_stay_well_formed_aux actions) as Hwf.
  exists (payloadOf parseFloat dateSeconds nowSeconds u (run actions)).
  destruct Hwf as [Hlen Hrest].
  unfold handleSubmit.
  replace (List.length (outcomes (run actions)) <? 2)%nat with false
    by (symmetry; apply Nat.ltb_ge; exact Hlen).
  split.
  - destruct (createBet _) as [err|]; [destruct (reply_error err)|]; reflexivity.
  - cbn [payloadOf payload_outcomes creator_email base_price].
    repeat split; try (apply Hrest).
    + exact Hlen.
    + apply basePrice_nonzero.
    + intros Hn. unfold basePrice. now rewrite Hn.
Qed.

End WithParsers.

Example add_trims_and_skips_duplicates :
  outcomes (run [SetNewOutcome "  Draw "; AddOutcome;
                 SetNewOutcome "Yes"; AddOutcome;
                 SetNewOutcome "   "; AddOutcome])
    = ["Yes"; "No"; "Draw"].
Proof. reflexivity. Qed.

Example remove_stops_at_two :
  outcomes (run [RemoveOutcome 0; RemoveOutcome 1])
    = ["Yes"; "No"]
  /\ error (run [RemoveOutcome 0]) = AtLeastTwoOutcomes.
Proof. split; reflexivity. Qed.

Example minimum_defaults_to_10 :
  option_map base_price
    (snd (handleSubmit parse_sample (fun _ => None) 0 (fun _ => Resolved None)
                       (Some MarketDetail.ann) (run [SetMinBet "0"])))
    = Some 10.
Proof. reflexivity. Qed.

End CreateMarketFacts.

(** ** MarketDetail: the comment box *)

Module CommentBoxFacts.
Import MarketDetail CommentBox.

(** X20. On a private market the comment box is shown exactly to the users
    who hold a stake: the creator, whom the box alone would admit, does
    not get the comments section.  On any other market it is shown to
    stake holders and to the creator. *)
Theorem commentBoxShown_iff bet_type st :
  commentBoxShown bet_type st
  = if String.eqb bet_type "PRIVATE" then hasBet st
    else hasBet st || isCreator st.
Proof.
  unfold commentBoxShown, commentsShown, inputShown.
  destruct (String.eqb bet_type "PRIVATE"); cbn [negb orb andb];
    destruct (hasBet st); reflexivity.
Qed.

Example host_sees_no_box_on_private_market :
  commentBoxShown "PRIVATE" (page host market "") = false
  /\ commentBoxShown "PUBLIC" (page host market "") = true.
Proof. split; reflexivity. Qed.

End CommentBoxFacts.
